(** * The task orchestrator of the AI Metaverse system

    A shallow embedding of [ai_metaverse/orchestrator.py] (class
    [AIMetaverseOrchestrator]) together with the part of
    [ai_metaverse/config.py] it reads, and the properties of submission,
    routing, dispatch, aggregation, feedback and status queries.

    Python dictionaries used as maps ([self.results], [self.assistants],
    a task's [assistant_results]) are finite maps; dictionaries used as
    structs (a task, a result record, a combined result) are records;
    [self.task_queue] is a list of references to the task dictionaries
    of the callers, each entry being the identity of a dictionary with
    what it holds.  Every method is a function from the orchestrator to
    an outcome that carries the orchestrator it leaves behind, whether
    it returned or raised.  The workers are parameters:
    an orchestrator is built from any three of them, and a worker is any
    pair of methods over its attributes.  The readings of [time.time()]
    are arguments of the methods that take them. *)

From Stdlib Require Import ZArith QArith_base String Ascii List.
From Stdlib Require Import DecimalString DecimalNat DecimalZ.
From stdpp Require Import base strings gmap list fin_maps.

Local Open Scope string_scope.
Local Open Scope Z_scope.

(** ** Python values *)

(** The values that travel through the orchestrator: task types and
    payloads, worker results, feedback payloads, worker attributes.
    They are what [json.load] produces. *)
#[local] Unset Elimination Schemes.
Inductive pyval : Type :=
| VNone
| VBool (b : bool)
| VInt (z : Z)
| VFloat (q : Q)
| VStr (s : string)
| VList (l : list pyval)
| VDict (d : list (string * pyval)).
#[local] Set Elimination Schemes.

(** A dictionary with string keys whose values are not inspected further. *)
Abbreviation pydict := (gmap string pyval).

(** [d.get(key)]: the value, or [None]. *)
Definition py_get (d : pydict) (key : string) : pyval :=
  default VNone (d !! key).

(** An exception: its class and [str(e)]. *)
Record exn : Type := Exn { exn_class : string; exn_str : string }.

Definition ValueError (msg : string) : exn := Exn "ValueError" msg.
Definition KeyError (key : string) : exn := Exn "KeyError" key.
Definition TypeError (msg : string) : exn := Exn "TypeError" msg.
Definition AttributeError (msg : string) : exn := Exn "AttributeError" msg.

(** What a call into a worker produces. *)
Inductive result (A : Type) : Type :=
| Returns (a : A)
| Raises (e : exn).
Arguments Returns {A} a.
Arguments Raises {A} e.

(** [type(v).__name__]. *)
Definition py_type_name (v : pyval) : string :=
  match v with
  | VNone => "NoneType"
  | VBool _ => "bool"
  | VInt _ => "int"
  | VFloat _ => "float"
  | VStr _ => "str"
  | VList _ => "list"
  | VDict _ => "dict"
  end.

(** [mapping.get(key, default)] on a dictionary whose keys are strings.
    The key is hashed first, which raises [TypeError] for a list and
    for a dictionary; a key that is not a string equals no key of the
    mapping. *)
Definition dict_get {V} (mapping : gmap string V) (key : pyval) (default_value : V)
    : result V :=
  match key with
  | VStr s => Returns (default default_value (mapping !! s))
  | VNone | VBool _ | VInt _ | VFloat _ => Returns default_value
  | VList _ | VDict _ =>
      Raises (TypeError ("unhashable type: '" +:+ py_type_name key +:+ "'"))
  end.

(** [v.items()]: the items of a dictionary, in iteration order; a value
    of any other type has no such attribute. *)
Definition py_items (v : pyval) : result (list (string * pyval)) :=
  match v with
  | VDict d => Returns d
  | _ => Raises (AttributeError
                   ("'" +:+ py_type_name v +:+ "' object has no attribute 'items'"))
  end.

(** [time.time()] is a float; [int(...)] truncates it towards zero. *)
Definition py_int (t : Q) : Z := Z.quot (Qnum t) (Z.pos (Qden t)).

(** [str(n)] for an integer, as an f-string renders it. *)
Definition py_str (z : Z) : string := NilZero.string_of_int (Z.to_int z).

(** ** config.py *)

Record AssistantConfig : Type := {
  cfg_task : string;
  cfg_models : list string;
  cfg_dataset : string;
  cfg_queue_url : string;
  capabilities : list string
}.

(** [ASSISTANTS], in the order of the dictionary literal. *)
Definition ASSISTANTS : list (string * AssistantConfig) :=
  [ ("Earth",
     {| cfg_task := "Generate foundational code structures";
        cfg_models := ["OpenAI Codex"; "GitHub Copilot"];
        cfg_dataset := "datasets/earth/code_structures.json";
        cfg_queue_url := "https://sqs.us-east-1.amazonaws.com/123456789012/earth_tasks";
        capabilities := ["code_generation"; "structure_analysis"] |});
    ("Moon",
     {| cfg_task := "Identify and resolve syntax errors";
        cfg_models := ["SyntaxNet"; "ErrorDetector"];
        cfg_dataset := "datasets/moon/syntax_errors.json";
        cfg_queue_url := "https://sqs.us-east-1.amazonaws.com/123456789012/moon_tasks";
        capabilities := ["error_detection"; "code_correction"] |});
    ("Sun",
     {| cfg_task := "Analyze and optimize code performance";
        cfg_models := ["PerformanceOptimizer"; "CodeProfiler"];
        cfg_dataset := "datasets/sun/performance_metrics.json";
        cfg_queue_url := "https://sqs.us-east-1.amazonaws.com/123456789012/sun_tasks";
        capabilities := ["performance_analysis"; "code_optimization"] |});
    ("Mercury",
     {| cfg_task := "Generate unit tests";
        cfg_models := ["TestGenerator"; "CodeCoverage"];
        cfg_dataset := "datasets/mercury/unit_tests.json";
        cfg_queue_url := "https://sqs.us-east-1.amazonaws.com/123456789012/mercury_tasks";
        capabilities := ["test_generation"; "coverage_analysis"] |});
    ("Venus",
     {| cfg_task := "Perform automated regression testing";
        cfg_models := ["RegressionTester"; "TestAutomation"];
        cfg_dataset := "datasets/venus/regression_tests.json";
        cfg_queue_url := "https://sqs.us-east-1.amazonaws.com/123456789012/venus_tasks";
        capabilities := ["regression_testing"; "test_automation"] |});
    ("Mars",
     {| cfg_task := "Identify security vulnerabilities";
        cfg_models := ["SecurityScanner"; "VulnerabilityDetector"];
        cfg_dataset := "datasets/mars/security_vulnerabilities.json";
        cfg_queue_url := "https://sqs.us-east-1.amazonaws.com/123456789012/mars_tasks";
        capabilities := ["security_analysis"; "vulnerability_detection"] |});
    ("Jupiter",
     {| cfg_task := "Analyze and document code";
        cfg_models := ["DocumentationGenerator"; "CodeAnalyzer"];
        cfg_dataset := "datasets/jupiter/code_documentation.json";
        cfg_queue_url := "https://sqs.us-east-1.amazonaws.com/123456789012/jupiter_tasks";
        capabilities := ["documentation_generation"; "code_analysis"] |}) ].

(** [ASSISTANTS[name]], which raises [KeyError] on an unknown name. *)
Definition ASSISTANTS_lookup (name : string) : option AssistantConfig :=
  snd <$> find (λ entry, String.eqb (fst entry) name) ASSISTANTS.

(** ** Tasks, results, feedback *)

(** What a task dictionary holds.  [type] is the value under that key,
    whatever it is, [None] when the key is missing; [payload] holds the
    keys the orchestrator never reads ([requirements], [code],
    [language], ...).  The last four fields are the keys [submit_task]
    writes; before submission they hold whatever the caller left
    there. *)
Record Task : Type := {
  type : option pyval;
  payload : pydict;
  task_id : string;
  task_status : string;
  timestamp : Q;
  assigned_assistants : list string
}.

(** The dictionary [_combine_results] builds.  The last three keys are
    present only when the worker of that name reported. *)
Record CombinedResult : Type := {
  combined_status : string;
  combined_timestamp : Q;
  components : gmap string pydict;
  generated_code : option pyval;
  syntax_validation : option pyval;
  performance_analysis : option pyval
}.

(** The feedback dictionary: the value under [assistant_feedback],
    whatever it is, [None] when the key is missing, and the other keys. *)
Record Feedback : Type := {
  assistant_feedback : option pyval;
  feedback_rest : pydict
}.

(** An entry of [self.results].  [feedback] is [None] while the key is
    absent. *)
Record ResultRecord : Type := {
  status : string;
  assistant_results : gmap string pydict;
  final_result : option CombinedResult;
  feedback : option Feedback
}.

(** ** Workers *)

(** A worker object as the orchestrator sees it (assistants/base.py and
    its three subclasses): its attributes and its two methods.
    [process_task] reads the attributes and either returns a result
    dictionary or raises; [handle_feedback] returns nothing, may update
    the attributes and may raise. *)
Module BaseAssistant.
Record t : Type := {
  attrs : pyval;
  process_task : pyval → Task → result pydict;
  handle_feedback : pyval → pyval → pyval * option exn
}.

Definition with_attrs (a : t) (new_attrs : pyval) : t :=
  {| attrs := new_attrs;
     process_task := process_task a;
     handle_feedback := handle_feedback a |}.
End BaseAssistant.

(** ** The orchestrator *)

(** The identity of a task dictionary.  A task dictionary is an object
    of the caller that submits it: [submit_task] writes to that object
    and puts it, not a copy of it, in the queue. *)
Definition obj : Type := nat.

(** [self.task_queue] is a list of references: an entry is the
    dictionary it refers to, together with what that dictionary holds.
    An object that occurs twice holds the same at both places; the
    writes of [submit_task] keep it so ([write_dict] below).  The
    orchestrator is the only one to write to a dictionary while it
    waits in the queue: a caller that does so is not described. *)
Record Orchestrator : Type := {
  assistants : gmap string BaseAssistant.t;
  task_queue : list (obj * Task);
  results : gmap string ResultRecord
}.

(** The outcome of a method call: it returned [a] or raised [e], and in
    both cases left the orchestrator [o]. *)
Inductive Res (A : Type) : Type :=
| Ok (a : A) (o : Orchestrator)
| Err (e : exn) (o : Orchestrator).
Arguments Ok {A} a o.
Arguments Err {A} e o.

Definition M (A : Type) : Type := Orchestrator → Res A.

Definition ret {A} (a : A) : M A := λ o, Ok a o.

Definition bind {A B} (m : M A) (k : A → M B) : M B := λ o,
  match m o with
  | Ok a o' => k a o'
  | Err e o' => Err e o'
  end.

(** [try: body  except Exception as e: handler(e)]. *)
Definition try_except {A} (body : M A) (handler : exn → M A) : M A := λ o,
  match body o with
  | Ok a o' => Ok a o'
  | Err e o' => handler e o'
  end.

(** The result of a call into a worker, re-raised in the caller. *)
Definition lift_result {A} (r : result A) : M A := λ o,
  match r with
  | Returns a => Ok a o
  | Raises e => Err e o
  end.

Notation "'let*' x ':=' m 'in' k" := (bind m (λ x, k))
  (at level 10, x name, m at level 100, k at level 200, only parsing).
Notation "m '>>' k" := (bind m (λ _, k))
  (at level 100, k at level 200, right associativity, only parsing).

Definition final {A} (r : Res A) : Orchestrator :=
  match r with Ok _ o => o | Err _ o => o end.

Definition set_assistants (f : gmap string BaseAssistant.t → gmap string BaseAssistant.t)
    (o : Orchestrator) : Orchestrator :=
  {| assistants := f (assistants o); task_queue := task_queue o; results := results o |}.

Definition set_task_queue (q : list (obj * Task)) (o : Orchestrator) : Orchestrator :=
  {| assistants := assistants o; task_queue := q; results := results o |}.

Definition set_results (f : gmap string ResultRecord → gmap string ResultRecord)
    (o : Orchestrator) : Orchestrator :=
  {| assistants := assistants o; task_queue := task_queue o; results := f (results o) |}.

(** [self.results[task_id][...] = ...]: an update of one record, which
    raises [KeyError] when the id is not a key of [self.results]. *)
Definition update_record (task_id : string) (f : ResultRecord → ResultRecord) : M unit := λ o,
  match results o !! task_id with
  | Some r => Ok tt (set_results (insert task_id (f r)) o)
  | None => Err (KeyError task_id) o
  end.

Definition set_status (s : string) (r : ResultRecord) : ResultRecord :=
  {| status := s; assistant_results := assistant_results r;
     final_result := final_result r; feedback := feedback r |}.

Definition set_assistant_result (name : string) (res : pydict) (r : ResultRecord) : ResultRecord :=
  {| status := status r; assistant_results := <[name := res]> (assistant_results r);
     final_result := final_result r; feedback := feedback r |}.

Definition set_final_result (c : CombinedResult) (r : ResultRecord) : ResultRecord :=
  {| status := status r; assistant_results := assistant_results r;
     final_result := Some c; feedback := feedback r |}.

Definition set_feedback (fb : Feedback) (r : ResultRecord) : ResultRecord :=
  {| status := status r; assistant_results := assistant_results r;
     final_result := final_result r; feedback := Some fb |}.

(** ** Construction *)

(** The dictionary [assistant_classes] of [initialize_assistants]; the
    three constructors are the worker classes, whose bodies lie outside
    the orchestrator. *)
Definition assistant_classes (EarthAssistant MoonAssistant SunAssistant :
    AssistantConfig → BaseAssistant.t) : gmap string (AssistantConfig → BaseAssistant.t) :=
  {[ "Earth" := EarthAssistant; "Moon" := MoonAssistant; "Sun" := SunAssistant ]}.

(** [for name, config in ASSISTANTS.items(): if name in assistant_classes:
    self.assistants[name] = assistant_classes[name](config)]. *)
Definition initialize_assistants
    (classes : gmap string (AssistantConfig → BaseAssistant.t))
    (registry : gmap string BaseAssistant.t) : gmap string BaseAssistant.t :=
  foldl (λ acc entry,
           match classes !! fst entry with
           | Some cls => <[fst entry := cls (snd entry)]> acc
           | None => acc
           end) registry ASSISTANTS.

(** [AIMetaverseOrchestrator()]. *)
Definition __init__ (EarthAssistant MoonAssistant SunAssistant :
    AssistantConfig → BaseAssistant.t) : Orchestrator :=
  {| assistants :=
       initialize_assistants (assistant_classes EarthAssistant MoonAssistant SunAssistant) ∅;
     task_queue := [];
     results := ∅ |}.

(** ** Submission and routing *)

Definition task_assistant_mapping : gmap string (list string) :=
  {[ "code_generation" := ["Earth"];
     "syntax_check" := ["Moon"];
     "performance_optimization" := ["Sun"];
     "full_pipeline" := ["Earth"; "Moon"; "Sun"] ]}.

Definition _determine_required_assistants (task : Task) : result (list string) :=
  let task_type := default (VStr "") (type task) in
  dict_get task_assistant_mapping task_type ["Earth"].

(** The f-string [f"task_{int(time.time())}_{len(self.task_queue)}"]. *)
Definition make_task_id (now : Q) (queue_length : nat) : string :=
  "task_" +:+ py_str (py_int now) +:+ "_" +:+ py_str (Z.of_nat queue_length).

(** What the dictionary [dict] holds when it is passed to
    [submit_task]: what the queue shows for it when it waits there, and
    otherwise [task], what its caller has put in it. *)
Definition held (dict : obj) (task : Task) (queue : list (obj * Task)) : Task :=
  default task (snd <$> find (λ entry, bool_decide (fst entry = dict)) queue).

(** An assignment to keys of the dictionary [dict], which leaves it
    holding [task]: every reference to it in the queue shows it. *)
Definition write_dict (dict : obj) (task : Task) (queue : list (obj * Task))
    : list (obj * Task) :=
  (λ entry, if decide (fst entry = dict) then (dict, task) else entry) <$> queue.

(** The task dictionary after the first three assignments of
    [submit_task], and after the fourth. *)
Definition stamp_task (task : Task) (id : string) (now : Q) : Task :=
  {| type := type task; payload := payload task; task_id := id;
     task_status := "pending"; timestamp := now;
     assigned_assistants := assigned_assistants task |}.

Definition assign_task (task : Task) (names : list string) : Task :=
  {| type := type task; payload := payload task; task_id := task_id task;
     task_status := task_status task; timestamp := timestamp task;
     assigned_assistants := names |}.

Definition pending_record : ResultRecord :=
  {| status := "pending"; assistant_results := ∅; final_result := None; feedback := None |}.

(** [submit_task] of the dictionary [dict]; [now_id] and [now_ts] are
    the two readings of [time.time()], for the id and for the
    timestamp.  When [_determine_required_assistants] raises, the first
    three keys are written already, and nothing is queued or recorded. *)
Definition submit_task (now_id now_ts : Q) (dict : obj) (task : Task) : M string := λ o,
  let task := held dict task (task_queue o) in
  let id := make_task_id now_id (length (task_queue o)) in
  let task := stamp_task task id now_ts in
  let o := set_task_queue (write_dict dict task (task_queue o)) o in
  match _determine_required_assistants task with
  | Raises e => Err e o
  | Returns required_assistants =>
      let task := assign_task task required_assistants in
      let o := set_task_queue (write_dict dict task (task_queue o) ++ [(dict, task)]) o in
      let o := set_results (insert id pending_record) o in
      Ok id o
  end.

(** ** Dispatch *)

Definition _process_task_with_assistant (task : Task) (assistant_name : string)
    (o : Orchestrator) : result pydict :=
  match assistants o !! assistant_name with
  | None => Raises (ValueError ("Assistant " +:+ assistant_name +:+ " not found"))
  | Some assistant =>
      BaseAssistant.process_task assistant (BaseAssistant.attrs assistant) task
  end.

(** The dictionary stored for an invocation that raised. *)
Definition error_result (e : exn) : pydict :=
  {[ "status" := VStr "error"; "error" := VStr (exn_str e) ]}.

(** The body of [for future in future_to_assistant]: the [try] covers
    both the wait for the worker and the store of its result.  The
    invocations of one task run on the thread pool, each reading the
    task and the attributes of its own worker only; their results are
    stored by this loop, in the calling thread and in the order of
    [assigned_assistants], whatever the order in which they finish. *)
Definition collect_result (task : Task) (assistant_name : string) : M unit :=
  try_except
    (λ o, (let* result := lift_result (_process_task_with_assistant task assistant_name o) in
           update_record (task_id task) (set_assistant_result assistant_name result)) o)
    (λ e, update_record (task_id task) (set_assistant_result assistant_name (error_result e))).

Fixpoint collect_results (task : Task) (names : list string) : M unit :=
  match names with
  | [] => ret tt
  | assistant_name :: rest =>
      collect_result task assistant_name >> collect_results task rest
  end.

(** [all(result.get('status') == 'success' for result in ...values())]. *)
Definition is_success (result : pydict) : bool :=
  match py_get result "status" with
  | VStr s => String.eqb s "success"
  | _ => false
  end.

Definition all_successful (assistant_results : gmap string pydict) : bool :=
  forallb (λ entry, is_success (snd entry)) (map_to_list assistant_results).

Definition combine (now : Q) (assistant_results : gmap string pydict) : CombinedResult :=
  {| combined_status :=
       if all_successful assistant_results then "success" else "partial_success";
     combined_timestamp := now;
     components := assistant_results;
     generated_code :=
       (λ r, py_get r "generated_code") <$> assistant_results !! "Earth";
     syntax_validation :=
       (λ r, py_get r "errors") <$> assistant_results !! "Moon";
     performance_analysis :=
       (λ r, py_get r "performance_analysis") <$> assistant_results !! "Sun" |}.

(** [_combine_results]; [now] is its reading of [time.time()]. *)
Definition _combine_results (now : Q) (task_id : string) : M unit := λ o,
  match results o !! task_id with
  | None => Err (KeyError task_id) o
  | Some task_results =>
      let combined_result := combine now (assistant_results task_results) in
      (update_record task_id (set_status (combined_status combined_result)) >>
       update_record task_id (set_final_result combined_result)) o
  end.

(** The body of the loop of [process_tasks] once the task is popped:
    the fan-out with the collection of the results, then the
    aggregation. *)
Definition process_one_task (now : Q) (task : Task) : M unit :=
  collect_results task (assigned_assistants task) >>
  _combine_results now (task_id task).

(** The loop [while self.task_queue: task = self.task_queue.pop(0); ...].
    Nothing in its body touches the queue, so the loop runs once per
    element of the queue it found, leaving the rest of it in
    [self.task_queue] each time ([while_task_queue_process_queue] below
    checks this against the loop as it is written).  [clock] gives the
    reading of [time.time()] taken when the task with this index is
    combined. *)
Fixpoint process_queue (clock : nat → Q) (k : nat) (queue : list (obj * Task)) : M unit :=
  match queue with
  | [] => ret tt
  | (_, task) :: rest =>
      (λ o, Ok tt (set_task_queue rest o)) >>
      process_one_task (clock k) task >>
      process_queue clock (S k) rest
  end.

(** The same loop as it is written, testing and popping
    [self.task_queue] itself at every turn, for at most [fuel] turns. *)
Fixpoint while_task_queue (fuel : nat) (clock : nat → Q) (k : nat)
    (o : Orchestrator) : option (Res unit) :=
  match task_queue o with
  | [] => Some (Ok tt o)
  | (_, task) :: rest =>
      match fuel with
      | O => None
      | S fuel =>
          match process_one_task (clock k) task (set_task_queue rest o) with
          | Ok _ o' => while_task_queue fuel clock (S k) o'
          | Err e o' => Some (Err e o')
          end
      end
  end.

(** [process_tasks].  [ThreadPoolExecutor(max_workers=n)] raises
    [ValueError] unless [n > 0]. *)
Definition process_tasks (clock : nat → Q) : M unit := λ o,
  if decide (size (assistants o) = 0)%nat
  then Err (ValueError "max_workers must be greater than 0") o
  else process_queue clock 0 (task_queue o) o.

(** ** Status and feedback *)

(** What [get_task_status] returns: the record, or the dictionary with
    the keys [status] and [error]. *)
Inductive TaskStatus : Type :=
| TaskRecord (r : ResultRecord)
| TaskNotFound (not_found_status error : string).

Definition reply_status (reply : TaskStatus) : string :=
  match reply with
  | TaskRecord r => status r
  | TaskNotFound s _ => s
  end.

Definition get_task_status (task_id : string) : M TaskStatus := λ o,
  Ok (default (TaskNotFound "not_found" ("Task " +:+ task_id +:+ " not found"))
        (TaskRecord <$> results o !! task_id)) o.

(** The loop over [feedback.get('assistant_feedback', {}).items()]. *)
Fixpoint route_feedback (items : list (string * pyval)) : M unit :=
  match items with
  | [] => ret tt
  | (assistant_name, assistant_feedback) :: rest =>
      (λ o, match assistants o !! assistant_name with
            | Some a =>
                let (new_attrs, raised) :=
                  BaseAssistant.handle_feedback a (BaseAssistant.attrs a) assistant_feedback in
                let o := set_assistants
                           (insert assistant_name (BaseAssistant.with_attrs a new_attrs)) o in
                match raised with
                | None => Ok tt o
                | Some e => Err e o
                end
            | None => Ok tt o
            end) >>
      route_feedback rest
  end.

(** [feedback.get('assistant_feedback', {})]. *)
Definition get_assistant_feedback (feedback : Feedback) : pyval :=
  default (VDict []) (assistant_feedback feedback).

Definition handle_feedback (task_id : string) (feedback : Feedback) : M unit := λ o,
  if decide (is_Some (results o !! task_id)) then
    (let* items := lift_result (py_items (get_assistant_feedback feedback)) in
     route_feedback items >>
     update_record task_id (set_feedback feedback) >>
     update_record task_id (set_status "completed_with_feedback")) o
  else Ok tt o.

Inductive AssistantStatus : Type :=
| AssistantActive (active_status : string) (caps : list string) (current_load : nat)
| AssistantNotFound (not_found_status error : string).

Definition get_assistant_status (assistant_name : string) : M AssistantStatus := λ o,
  match assistants o !! assistant_name with
  | Some _ =>
      match ASSISTANTS_lookup assistant_name with
      | Some config =>
          Ok (AssistantActive "active" (capabilities config)
                (length (filter (λ entry, assistant_name ∈ assigned_assistants (snd entry))
                           (task_queue o)))) o
      | None => Err (KeyError assistant_name) o
      end
  | None =>
      Ok (AssistantNotFound "not_found" ("Assistant " +:+ assistant_name +:+ " not found")) o
  end.

Record SystemStatus : Type := {
  active_assistants : nat;
  pending_tasks : nat;
  completed_tasks : nat;
  assistant_status : gmap string AssistantStatus
}.

(** [result['status'] in ['success', 'completed_with_feedback']]. *)
Definition counts_as_completed (r : ResultRecord) : bool :=
  bool_decide (status r ∈ ["success"; "completed_with_feedback"]).

(** The list comprehension under [completed_tasks]. *)
Definition completed_task_ids (o : Orchestrator) : list string :=
  fst <$> filter (λ entry, counts_as_completed (snd entry) = true) (map_to_list (results o)).

(** The dictionary comprehension under [assistant_status]. *)
Fixpoint assistant_status_of (names : list string) : M (gmap string AssistantStatus) :=
  match names with
  | [] => ret ∅
  | name :: rest =>
      let* st := get_assistant_status name in
      let* m := assistant_status_of rest in
      ret (<[name := st]> m)
  end.

Definition get_system_status : M SystemStatus := λ o,
  (let* statuses := assistant_status_of (fst <$> map_to_list (assistants o)) in
   ret {| active_assistants := size (assistants o);
          pending_tasks := length (task_queue o);
          completed_tasks := length (completed_task_ids o);
          assistant_status := statuses |}) o.

(** ** Calls and reachable orchestrators *)

(** A call of a public method, with the clock readings it takes. *)
Inductive call : Type :=
| SubmitTask (now_id now_ts : Q) (dict : obj) (task : Task)
| ProcessTasks (clock : nat → Q)
| GetTaskStatus (task_id : string)
| HandleFeedback (task_id : string) (feedback : Feedback)
| GetAssistantStatus (assistant_name : string)
| GetSystemStatus.

(** The orchestrator a call leaves behind, whether it returns or raises. *)
Definition after (c : call) (o : Orchestrator) : Orchestrator :=
  match c with
  | SubmitTask now_id now_ts dict task => final (submit_task now_id now_ts dict task o)
  | ProcessTasks clock => final (process_tasks clock o)
  | GetTaskStatus id => final (get_task_status id o)
  | HandleFeedback id fb => final (handle_feedback id fb o)
  | GetAssistantStatus name => final (get_assistant_status name o)
  | GetSystemStatus => final (get_system_status o)
  end.

(** The orchestrators a program can hold: a freshly constructed one,
    then any sequence of method calls, on new task dictionaries or on
    dictionaries submitted before. *)
Inductive reachable : Orchestrator → Prop :=
| reachable_init EarthAssistant MoonAssistant SunAssistant :
    reachable (__init__ EarthAssistant MoonAssistant SunAssistant)
| reachable_after c o :
    reachable o → reachable (after c o).

(** The statuses a record of [self.results] takes. *)
Definition task_statuses : list string :=
  ["pending"; "success"; "partial_success"; "completed_with_feedback"].

(** The dictionaries the queue refers to, entry by entry. *)
Definition queued_tasks (o : Orchestrator) : list Task := snd <$> task_queue o.

(** What holds of every reachable orchestrator.  The id a waiting
    dictionary carries was made when the queue was as long as the
    position at which the dictionary was last put in it. *)
Record consistent (o : Orchestrator) : Prop := {
  registry_names : dom (assistants o) = ({["Earth"; "Moon"; "Sun"]} : gset string);
  queued_recorded : ∀ task, task ∈ queued_tasks o → is_Some (results o !! task_id task);
  queued_unprocessed : ∀ task r, task ∈ queued_tasks o → results o !! task_id task = Some r →
                         status r ∈ ["pending"; "completed_with_feedback"];
  queued_ids : ∀ i dict task, task_queue o !! i = Some (dict, task) →
                 ∃ now j, task_id task = make_task_id now j ∧
                          task_queue o !! j = Some (dict, task);
  queued_shared : ∀ dict task task', (dict, task) ∈ task_queue o →
                    (dict, task') ∈ task_queue o → task = task';
  queued_routed : ∀ task, task ∈ queued_tasks o →
                    _determine_required_assistants task = Returns (assigned_assistants task);
  recorded_statuses : ∀ id r, results o !! id = Some r → status r ∈ task_statuses
}.

(** A worker whose [handle_feedback] returns whatever it is given. *)
Definition returns_normally (a : BaseAssistant.t) : Prop :=
  ∀ attrs payload, snd (BaseAssistant.handle_feedback a attrs payload) = None.

(** ** Vocabulary of the properties *)

(** A string without the separator of [make_task_id]. *)
Definition unseparated (s : string) : Prop :=
  ∀ a b, s ≠ a +:+ String "_" b.

(** What the loop of [process_tasks] stores for a worker: its result,
    or the error dictionary when the invocation raised. *)
Definition reported (task : Task) (assistant_name : string) (o : Orchestrator) : pydict :=
  match _process_task_with_assistant task assistant_name o with
  | Returns res => res
  | Raises e => error_result e
  end.

Definition report_all (task : Task) (o : Orchestrator) (names : list string)
    (ar : gmap string pydict) : gmap string pydict :=
  foldl (λ ar name, <[name := reported task name o]> ar) ar names.

Definition with_assistant_results (ar : gmap string pydict) (r : ResultRecord) : ResultRecord :=
  {| status := status r; assistant_results := ar;
     final_result := final_result r; feedback := feedback r |}.

(** The record [_combine_results] leaves. *)
Definition combined_record (now : Q) (r : ResultRecord) : ResultRecord :=
  let c := combine now (assistant_results r) in
  set_final_result c (set_status (combined_status c) r).

(** The record one round of the loop of [process_tasks] leaves. *)
Definition processed (now : Q) (task : Task) (o : Orchestrator) (r : ResultRecord) : ResultRecord :=
  combined_record now
    (with_assistant_results
       (report_all task o (assigned_assistants task) (assistant_results r)) r).

(** The worker after [handle_feedback] was called on it once for each
    payload, in this order. *)
Definition deliver (a : BaseAssistant.t) (payloads : list pyval) : BaseAssistant.t :=
  foldl (λ a p,
           BaseAssistant.with_attrs a
             (fst (BaseAssistant.handle_feedback a (BaseAssistant.attrs a) p)))
        a payloads.

(** The sub-payloads an [assistant_feedback] dictionary holds for a name. *)
Definition addressed_to (name : string) (items : list (string * pyval)) : list pyval :=
  snd <$> filter (λ entry, fst entry = name) items.

(** Each of these calls of [handle_feedback], made on the worker one
    after the other, returns. *)
Fixpoint calls_return (a : BaseAssistant.t) (payloads : list pyval) : Prop :=
  match payloads with
  | [] => True
  | p :: rest =>
      snd (BaseAssistant.handle_feedback a (BaseAssistant.attrs a) p) = None ∧
      calls_return
        (BaseAssistant.with_attrs a
           (fst (BaseAssistant.handle_feedback a (BaseAssistant.attrs a) p))) rest
  end.

(** The record [handle_feedback] leaves for a known id. *)
Definition with_feedback (fb : Feedback) (r : ResultRecord) : ResultRecord :=
  set_status "completed_with_feedback" (set_feedback fb r).

(** Two orchestrators with the same workers and the same queue. *)
Definition same_frame (o o' : Orchestrator) : Prop :=
  assistants o' = assistants o ∧ task_queue o' = task_queue o.

(** What a record adds to [completed_tasks]. *)
Definition count_of (r : ResultRecord) : nat := if counts_as_completed r then 1 else 0.

(** What a call returned, if it returned. *)
Definition returned {A} (r : Res A) : option A :=
  match r with Ok a _ => Some a | Err _ _ => None end.

(** ** Scenarios *)

(** A worker that succeeds, and keeps the feedback it is given. *)
Definition steady_worker (code : string) (config : AssistantConfig) : BaseAssistant.t :=
  {| BaseAssistant.attrs := VList [];
     BaseAssistant.process_task := λ _ _,
       Returns {[ "status" := VStr "success"; "generated_code" := VStr code ]};
     BaseAssistant.handle_feedback := λ attrs fb,
       (match attrs with VList l => VList (l ++ [fb]) | _ => VList [fb] end, None) |}.

(** A worker whose [handle_feedback] raises, as that of the Sun
    assistant does when it cannot open its dataset file for writing. *)
Definition deaf_worker (config : AssistantConfig) : BaseAssistant.t :=
  {| BaseAssistant.attrs := VNone;
     BaseAssistant.process_task := λ _ _, Returns {[ "status" := VStr "success" ]};
     BaseAssistant.handle_feedback := λ attrs _,
       (attrs,
        Some (Exn "FileNotFoundError"
                ("[Errno 2] No such file or directory: '" +:+ cfg_dataset config +:+ "'"))) |}.

(** A worker whose [process_task] raises. *)
Definition failing_worker (config : AssistantConfig) : BaseAssistant.t :=
  {| BaseAssistant.attrs := VNone;
     BaseAssistant.process_task := λ _ _, Raises (Exn "RuntimeError" "model unavailable");
     BaseAssistant.handle_feedback := λ attrs _, (attrs, None) |}.

(** The task of the [__main__] block of orchestrator.py. *)
Definition full_pipeline_request : Task :=
  {| type := Some (VStr "full_pipeline");
     payload := {[ "requirements" :=
                     VDict [("programming_language", VStr "python");
                            ("project_type", VStr "web_application")] ]};
     task_id := ""; task_status := ""; timestamp := 0 # 1;
     assigned_assistants := [] |}.

Definition code_generation_request : Task :=
  {| type := Some (VStr "code_generation"); payload := ∅;
     task_id := ""; task_status := ""; timestamp := 0 # 1;
     assigned_assistants := [] |}.

(** An orchestrator whose three workers succeed, and one whose Moon raises. *)
Definition steady_orchestrator : Orchestrator :=
  __init__ (steady_worker "earth") (steady_worker "moon") (steady_worker "sun").

Definition moonless_orchestrator : Orchestrator :=
  __init__ (steady_worker "earth") failing_worker (steady_worker "sun").

(** A clock that reads 100.5 s whenever a result is combined. *)
Definition half_past : nat → Q := λ _, 1005 # 10.

(** The full-pipeline task submitted at 100.2 s to the orchestrator
    whose Moon raises, and the same after [process_tasks]. *)
Definition queued_orchestrator : Orchestrator :=
  after (SubmitTask (1002 # 10) (1002 # 10) 1%nat full_pipeline_request)
    moonless_orchestrator.

(** The task as it waits in the queue. *)
Definition queued_request : Task :=
  assign_task (stamp_task full_pipeline_request "task_100_0" (1002 # 10))
    ["Earth"; "Moon"; "Sun"].

Definition drained_orchestrator : Orchestrator :=
  after (ProcessTasks half_past) queued_orchestrator.

(** Feedback for Earth and for a worker that is not registered. *)
Definition mixed_feedback : Feedback :=
  {| assistant_feedback :=
       Some (VDict [("Pluto", VStr "ignored");
                    ("Earth", VDict [("is_successful", VBool true)])]);
     feedback_rest := {[ "rating" := VInt 5 ]} |}.

(** Feedback for Earth and for Sun. *)
Definition sun_feedback : Feedback :=
  {| assistant_feedback :=
       Some (VDict [("Earth", VDict [("is_successful", VBool true)]);
                    ("Sun", VDict [("is_successful", VBool true)])]);
     feedback_rest := {[ "rating" := VInt 4 ]} |}.

(** Feedback whose [assistant_feedback] is a list, not a dictionary. *)
Definition listed_feedback : Feedback :=
  {| assistant_feedback := Some (VList [VStr "Earth"]);
     feedback_rest := ∅ |}.

(** A task whose type is a list, as [json.load] yields for
    [{"type": ["code_generation"]}]. *)
Definition listed_type_request : Task :=
  {| type := Some (VList [VStr "code_generation"]); payload := ∅;
     task_id := ""; task_status := ""; timestamp := 0 # 1;
     assigned_assistants := [] |}.

Definition second_feedback : Feedback :=
  {| assistant_feedback := None; feedback_rest := {[ "rating" := VInt 1 ]} |}.

(** ** main.py and examples/run_examples.py *)

(** [raise]. *)
Definition raise {A} (e : exn) : M A := λ o, Err e o.

(** The methods of [AIMetaverseSystem] (main.py) that wrap the
    orchestrator it owns: each logs, calls the method of the same name
    and, on an exception, logs and raises it again.  The log lines read
    [task.get('type', 'unknown')] and [status['status']], which every
    task and every reply of [get_task_status] has.  [main] and
    [run_single_task] pass [submit_task] a dictionary of their own. *)
Module AIMetaverseSystem.
Definition submit_task (now_id now_ts : Q) (dict : obj) (task : Task) : M string :=
  try_except
    (let* task_id := submit_task now_id now_ts dict task in ret task_id)
    (λ e, raise e).

Definition process_tasks (clock : nat → Q) : M unit :=
  try_except (process_tasks clock) (λ e, raise e).

Definition get_task_status (task_id : string) : M TaskStatus :=
  try_except
    (let* status := get_task_status task_id in ret status)
    (λ e, raise e).

Definition get_system_status : M SystemStatus :=
  try_except
    (let* status := get_system_status in ret status)
    (λ e, raise e).
End AIMetaverseSystem.

(** The statuses on which the monitoring loop of [run_single_task]
    (examples/run_examples.py) stops. *)
Definition monitor_exit : list string :=
  ["success"; "error"; "completed_with_feedback"].

(** The loop [while True: status = system.get_task_status(task_id); if
    status['status'] in [...]: break; time.sleep(5)] followed by
    [return status], run for at most [fuel] turns: [None] when the loop
    is still running after that many. *)
Fixpoint monitor (fuel : nat) (task_id : string) : M (option TaskStatus) :=
  match fuel with
  | O => ret None
  | S fuel =>
      let* status := AIMetaverseSystem.get_task_status task_id in
      if bool_decide (reply_status status ∈ monitor_exit) then ret (Some status)
      else monitor fuel task_id
  end.

(** The submission and the monitoring loop of [run_single_task], that
    is the function from the call of [system.submit_task] on, without
    the three log lines before it and the handler around it. *)
Definition submit_and_monitor (fuel : nat) (now_id now_ts : Q) (dict : obj) (task : Task)
    : M (option TaskStatus) :=
  let* task_id := AIMetaverseSystem.submit_task now_id now_ts dict task in
  monitor fuel task_id.

(** ** More vocabulary *)

(** What holds of the queue of every reachable orchestrator: the tasks
    waiting in it carry the workers their type is routed to, and their
    records have neither results nor a final result yet. *)
Record waiting (o : Orchestrator) : Prop := {
  waiting_routed : ∀ task, task ∈ queued_tasks o →
                     _determine_required_assistants task =
                       Returns (assigned_assistants task);
  waiting_untouched : ∀ task r, task ∈ queued_tasks o → results o !! task_id task = Some r →
                        assistant_results r = ∅ ∧ final_result r = None
}.

(** The load [get_assistant_status] reports for a worker. *)
Definition current_load_of (name : string) (o : Orchestrator) : nat :=
  length (filter (λ entry, name ∈ assigned_assistants (snd entry)) (task_queue o)).

(** An orchestrator whose Sun cannot take feedback, with one task. *)
Definition deaf_orchestrator : Orchestrator :=
  after (SubmitTask (1002 # 10) (1002 # 10) 1%nat code_generation_request)
    (__init__ (steady_worker "earth") (steady_worker "moon") deaf_worker).

(** Two dictionaries submitted, the first of them twice: the queue
    refers to the first, to the second, and to the first again. *)
Definition resubmitted_orchestrator : Orchestrator :=
  after (SubmitTask (1004 # 10) (1004 # 10) 1%nat full_pipeline_request)
    (after (SubmitTask (1003 # 10) (1003 # 10) 2%nat code_generation_request)
       queued_orchestrator).

(** ** Task ids *)

Section TaskIds.

Lemma unseparated_empty : unseparated "".
Proof. intros [|c a] b; discriminate. Qed.

Lemma unseparated_String c s :
  c ≠ "_"%char → unseparated s → unseparated (String c s).
Proof.
  intros Hc Hs [|c' a] b; simpl; intros [=]; subst.
  - by apply Hc.
  - by eapply Hs.
Qed.

Lemma string_of_uint_unseparated d : unseparated (NilEmpty.string_of_uint d).
Proof.
  induction d; simpl;
    first [ apply unseparated_empty
          | apply unseparated_String; [discriminate | assumption] ].
Qed.

Lemma py_str_nat_unseparated (n : nat) : unseparated (py_str (Z.of_nat n)).
Proof.
  unfold py_str.
  destruct (Z.of_nat n) as [|p|p] eqn:E; [| |lia]; simpl.
  - apply unseparated_String; [discriminate | apply unseparated_empty].
  - unfold NilZero.string_of_uint.
    destruct (Pos.to_uint p);
      first [ apply unseparated_String; [discriminate | apply unseparated_empty]
            | apply string_of_uint_unseparated ].
Qed.

(** The text after the last separator is determined by the whole. *)
Lemma last_field a a' b b' :
  unseparated b → unseparated b' →
  a +:+ String "_" b = a' +:+ String "_" b' → b = b'.
Proof.
  intros Hb Hb'. revert a'.
  induction a as [|c a IH]; intros [|c' a']; simpl; intros [=]; subst.
  - done.
  - by edestruct Hb.
  - by edestruct Hb'.
  - by eapply IH.
Qed.

Lemma py_str_inj z z' : py_str z = py_str z' → z = z'.
Proof.
  unfold py_str. intros E.
  apply DecimalZ.to_int_inj.
  assert (Hnn : ∀ z, Z.to_int z ≠ Decimal.Pos Decimal.Nil ∧
                      Z.to_int z ≠ Decimal.Neg Decimal.Nil).
  { intros [|p|p]; simpl; split; try discriminate;
      intros [=H]; by apply DecimalPos.Unsigned.to_uint_nonnil in H. }
  assert (Some (Z.to_int z) = Some (Z.to_int z')) as [=]; [|done].
  rewrite <- (NilZero.isi (Z.to_int z)), <- (NilZero.isi (Z.to_int z'))
    by apply Hnn.
  by rewrite E.
Qed.

(** Two ids made at different queue lengths differ, whatever the clock. *)
Lemma make_task_id_length now now' n n' :
  make_task_id now n = make_task_id now' n' → n = n'.
Proof.
  unfold make_task_id. simpl. intros [=E].
  apply last_field in E; try apply py_str_nat_unseparated.
  apply py_str_inj in E. lia.
Qed.

End TaskIds.

(** ** Dispatch and aggregation *)

Section Dispatch.

Lemma reported_ext task name o o' :
  assistants o' = assistants o → reported task name o' = reported task name o.
Proof. unfold reported, _process_task_with_assistant. by intros ->. Qed.

Lemma report_all_ext task names o o' ar :
  assistants o' = assistants o → report_all task o' names ar = report_all task o names ar.
Proof.
  intros E. unfold report_all. revert ar.
  induction names as [|n names IH]; intros ar; simpl; [done|].
  by rewrite IH, (reported_ext _ _ _ _ E).
Qed.

Lemma report_all_elem task o names ar name :
  name ∈ names → report_all task o names ar !! name = Some (reported task name o).
Proof.
  unfold report_all. revert ar.
  induction names as [|n names IH] using rev_ind; intros ar Hin.
  - by apply elem_of_nil in Hin.
  - rewrite foldl_app. simpl.
    destruct (decide (n = name)) as [->|Hne].
    + by rewrite lookup_insert_eq.
    + rewrite lookup_insert_ne by done. apply IH.
      apply elem_of_app in Hin as [?|Hin]; [done|].
      apply list_elem_of_singleton in Hin. congruence.
Qed.

Lemma report_all_not_elem task o names ar name :
  name ∉ names → report_all task o names ar !! name = ar !! name.
Proof.
  unfold report_all. revert ar.
  induction names as [|n names IH]; intros ar Hin; simpl; [done|].
  apply not_elem_of_cons in Hin as [Hne Hin].
  rewrite IH by done. by rewrite lookup_insert_ne.
Qed.

Lemma update_record_Some id f o r :
  results o !! id = Some r →
  update_record id f o = Ok tt (set_results (insert id (f r)) o).
Proof. unfold update_record. by intros ->. Qed.

Lemma collect_result_Some task name o r :
  results o !! task_id task = Some r →
  collect_result task name o =
    Ok tt (set_results
             (insert (task_id task) (set_assistant_result name (reported task name o) r)) o).
Proof.
  intros Hr. unfold collect_result, try_except, bind, lift_result, reported.
  destruct (_process_task_with_assistant task name o); by rewrite (update_record_Some _ _ _ r).
Qed.

Lemma collect_results_Some task names o r :
  results o !! task_id task = Some r →
  ∃ o', collect_results task names o = Ok tt o' ∧
    assistants o' = assistants o ∧ task_queue o' = task_queue o ∧
    results o' =
      <[task_id task :=
          with_assistant_results (report_all task o names (assistant_results r)) r]>
        (results o).
Proof.
  revert o r. induction names as [|n names IH]; intros o r Hr; simpl.
  - exists o. repeat split. destruct r. by rewrite insert_id.
  - unfold bind. rewrite (collect_result_Some _ _ _ r) by done.
    edestruct IH as (o' & -> & Ha & Hq & Hres).
    { simpl. apply lookup_insert_eq. }
    exists o'. simpl in *. repeat split; try done.
    by rewrite Hres, insert_insert_eq.
Qed.

Lemma combine_results_Some now id o r :
  results o !! id = Some r →
  ∃ o', _combine_results now id o = Ok tt o' ∧
    assistants o' = assistants o ∧ task_queue o' = task_queue o ∧
    results o' = <[id := combined_record now r]> (results o).
Proof.
  intros Hr. unfold _combine_results, bind. rewrite Hr.
  rewrite (update_record_Some _ _ _ r) by done.
  erewrite update_record_Some by (simpl; apply lookup_insert_eq).
  eexists. split; [done|]. simpl. repeat split. by rewrite insert_insert_eq.
Qed.

(** The stores of results and the aggregation leave the workers and
    the queue as they are, whether they return or raise. *)
Lemma bind_frame {A B} (m : M A) (k : A → M B) o :
  (∀ o, same_frame o (final (m o))) →
  (∀ a o, same_frame o (final (k a o))) →
  same_frame o (final (bind m k o)).
Proof.
  intros Hm Hk. unfold bind. specialize (Hm o).
  destruct (m o) as [a o1|e o1]; simpl in Hm; [|done].
  destruct (Hk a o1) as [Ha Hq], Hm as [Ha' Hq']. split; congruence.
Qed.

Lemma update_record_frame id f o : same_frame o (final (update_record id f o)).
Proof. unfold update_record. by destruct (results o !! id). Qed.

Lemma collect_result_frame task name o : same_frame o (final (collect_result task name o)).
Proof.
  unfold collect_result, try_except, bind, lift_result.
  destruct (_process_task_with_assistant task name o) as [res|e].
  - pose proof (update_record_frame (task_id task) (set_assistant_result name res) o) as H.
    destruct (update_record _ _ o) as [[] o1|e o1]; simpl in H; [done|].
    destruct (update_record_frame (task_id task)
                (set_assistant_result name (error_result e)) o1) as [Ha Hq].
    destruct H as [Ha' Hq']. split; congruence.
  - apply update_record_frame.
Qed.

Lemma collect_results_frame task names o :
  same_frame o (final (collect_results task names o)).
Proof.
  revert o. induction names as [|n names IH]; intros o; [done|].
  cbn [collect_results]. apply bind_frame; [apply collect_result_frame|auto].
Qed.

Lemma combine_results_frame now id o : same_frame o (final (_combine_results now id o)).
Proof.
  unfold _combine_results. destruct (results o !! id); [|done].
  apply bind_frame; intros; apply update_record_frame.
Qed.

Lemma process_one_task_frame now task o :
  same_frame o (final (process_one_task now task o)).
Proof.
  apply bind_frame; [apply collect_results_frame|intros; apply combine_results_frame].
Qed.

(** The loop of [process_tasks] as it is written ends within as many
    turns as the queue is long, and does what [process_queue] does. *)
Lemma while_task_queue_process_queue clock queue : ∀ k o,
  task_queue o = queue →
  while_task_queue (length queue) clock k o = Some (process_queue clock k queue o).
Proof.
  induction queue as [|[dict task] rest IH]; intros k o Hq.
  - simpl. by rewrite Hq.
  - cbn [length while_task_queue process_queue]. rewrite Hq.
    unfold bind at 1. cbn beta iota. unfold bind at 1.
    pose proof (process_one_task_frame (clock k) task (set_task_queue rest o)) as [_ Hq'].
    destruct (process_one_task (clock k) task (set_task_queue rest o)) as [[] o'|e o'];
      [|done].
    by apply IH.
Qed.

(** One round of the loop. *)
Lemma process_one_Some now task o r :
  results o !! task_id task = Some r →
  ∃ o', process_one_task now task o = Ok tt o' ∧
    assistants o' = assistants o ∧ task_queue o' = task_queue o ∧
    results o' = <[task_id task := processed now task o r]> (results o).
Proof.
  intros Hr. unfold process_one_task, bind.
  destruct (collect_results_Some task (assigned_assistants task) o r Hr)
    as (o1 & -> & Ha1 & Hq1 & Hr1).
  edestruct (combine_results_Some now (task_id task) o1) as (o2 & -> & Ha2 & Hq2 & Hr2).
  { rewrite Hr1. apply lookup_insert_eq. }
  exists o2. split; [done|]. repeat split; try congruence.
  by rewrite Hr2, Hr1, insert_insert_eq.
Qed.

Lemma processed_ext now task o o' r :
  assistants o' = assistants o → processed now task o' r = processed now task o r.
Proof. intros E. unfold processed. by rewrite (report_all_ext _ _ _ _ _ E). Qed.

(** Storing the reports of the same workers on the same task a second
    time changes nothing. *)
Lemma report_all_idem task o names ar :
  report_all task o names (report_all task o names ar) = report_all task o names ar.
Proof.
  apply map_eq. intros name.
  destruct (decide (name ∈ names)) as [Hin|Hout].
  - by rewrite !(report_all_elem _ _ _ _ _ Hin).
  - by rewrite (report_all_not_elem _ _ _ _ _ Hout).
Qed.

(** A second round on a task leaves what a single round at the later
    time leaves. *)
Lemma processed_idem now now' task o r :
  processed now' task o (processed now task o r) = processed now' task o r.
Proof.
  unfold processed, combined_record, with_assistant_results, set_final_result, set_status.
  simpl. by rewrite report_all_idem.
Qed.

(** The whole loop, for a queue of recorded dictionaries of which those
    with the same id hold the same: it returns, empties the queue, and
    leaves for each task the record of a round on it, the one made at
    the last place where the queue refers to it. *)
Lemma process_queue_Ok clock queue : ∀ k o,
  (∀ task, task ∈ queue.*2 → is_Some (results o !! task_id task)) →
  (∀ task task', task ∈ queue.*2 → task' ∈ queue.*2 →
     task_id task = task_id task' → task = task') →
  ∃ o', process_queue clock k queue o = Ok tt o' ∧
    assistants o' = assistants o ∧
    task_queue o' = match queue with [] => task_queue o | _ => [] end ∧
    (∀ id, id ∉ task_id <$> queue.*2 → results o' !! id = results o !! id) ∧
    (∀ task, task ∈ queue.*2 →
       ∃ r i, queue.*2 !! i = Some task ∧
              results o !! task_id task = Some r ∧
              results o' !! task_id task = Some (processed (clock (k + i)%nat) task o r)).
Proof.
  induction queue as [|[dict task] rest IH]; intros k o Hrec Hsame.
  - exists o. repeat split; try done. intros task Hin. by apply elem_of_nil in Hin.
  - destruct (Hrec task) as [r Hr]; [by left|].
    cbn [process_queue]. unfold bind at 1. cbn beta iota.
    pose (o0 := set_task_queue rest o).
    fold o0. unfold bind at 1.
    pose proof (process_one_Some (clock k) task o0 r Hr) as (o1 & E1 & Ha1 & Hq1 & Hr1).
    rewrite E1.
    destruct (IH (S k) o1) as (o' & E' & Ha' & Hq' & Hother & Hmine).
    { intros t Ht. rewrite Hr1.
      destruct (Hrec t) as [rt Hrt]; [by right|].
      destruct (decide (task_id task = task_id t)) as [->|Hne].
      - rewrite lookup_insert_eq. eauto.
      - rewrite lookup_insert_ne by done. eauto. }
    { intros t t' Ht Ht'. apply Hsame; by right. }
    exists o'. split; [done|]. split; [by rewrite Ha', Ha1|].
    split; [by destruct rest; [rewrite Hq', Hq1|]|]. split.
    + intros id Hid. cbn [fmap list_fmap snd] in Hid.
      apply not_elem_of_cons in Hid as [Hne Hid].
      rewrite Hother, Hr1 by done. by rewrite lookup_insert_ne.
    + intros t Ht.
      destruct (decide (task_id t ∈ task_id <$> rest.*2)) as [Hin|Hout].
      * apply list_elem_of_fmap in Hin as (t' & Eid & Hin).
        assert (t' = t) as ->.
        { apply Hsame; [by right|done|done]. }
        destruct (Hmine t Hin) as (rt & i & Hi & Hrt & Hrt').
        destruct (decide (task_id task = task_id t)) as [Heq|Hne].
        -- assert (task = t) as <- by (apply Hsame; [by left|done|done]).
           rewrite Hr1, lookup_insert_eq in Hrt. injection Hrt as <-.
           exists r, (S i). split; [done|]. split; [done|].
           rewrite Hrt'. f_equal.
           replace (S k + i)%nat with (k + S i)%nat by lia.
           rewrite (processed_ext _ _ o o1) by (by rewrite Ha1).
           rewrite (processed_ext _ _ o o0) by done.
           apply processed_idem.
        -- rewrite Hr1, lookup_insert_ne in Hrt by done.
           exists rt, (S i). split; [done|]. split; [done|].
           rewrite Hrt'. f_equal.
           replace (S k + i)%nat with (k + S i)%nat by lia.
           apply processed_ext. by rewrite Ha1.
      * assert (t = task) as ->.
        { cbn [fmap list_fmap snd] in Ht. apply elem_of_cons in Ht as [->|Ht]; [done|].
          destruct Hout. apply list_elem_of_fmap. by exists t. }
        exists r, 0%nat. split; [done|]. split; [done|].
        rewrite Hother, Hr1 by done. by rewrite lookup_insert_eq, Nat.add_0_r.
Qed.

End Dispatch.

(** ** Feedback routing *)

Section FeedbackRouting.

(** One turn of the loop of [handle_feedback]. *)
Lemma route_feedback_cons name fb items o :
  route_feedback ((name, fb) :: items) o =
    match assistants o !! name with
    | Some a =>
        let new_attrs :=
          fst (BaseAssistant.handle_feedback a (BaseAssistant.attrs a) fb) in
        let o' := set_assistants (insert name (BaseAssistant.with_attrs a new_attrs)) o in
        match snd (BaseAssistant.handle_feedback a (BaseAssistant.attrs a) fb) with
        | None => route_feedback items o'
        | Some e => Err e o'
        end
    | None => route_feedback items o
    end.
Proof.
  cbn [route_feedback]. unfold bind.
  destruct (assistants o !! name) as [a|]; [|done].
  by destruct (BaseAssistant.handle_feedback a (BaseAssistant.attrs a) fb) as [new [e|]].
Qed.

(** Whatever the workers do, routing touches neither the records nor
    the queue nor the set of registered names. *)
Lemma route_feedback_final items : ∀ o,
  results (final (route_feedback items o)) = results o ∧
  task_queue (final (route_feedback items o)) = task_queue o ∧
  dom (assistants (final (route_feedback items o))) = dom (assistants o).
Proof.
  induction items as [|[name fb] items IH]; intros o; [done|].
  rewrite route_feedback_cons.
  destruct (assistants o !! name) as [a|] eqn:Ha; [|apply IH].
  apply elem_of_dom_2 in Ha.
  destruct (BaseAssistant.handle_feedback a (BaseAssistant.attrs a) fb) as [new [e|]];
    cbn [fst snd].
  - simpl. repeat split. rewrite dom_insert_L.
    apply subseteq_union_1_L. by apply singleton_subseteq_l.
  - destruct (IH (set_assistants (insert name (BaseAssistant.with_attrs a new)) o))
      as (-> & -> & ->).
    simpl. repeat split. rewrite dom_insert_L.
    apply subseteq_union_1_L. by apply singleton_subseteq_l.
Qed.

Lemma calls_return_app a ps qs :
  calls_return a (ps ++ qs) ↔ calls_return a ps ∧ calls_return (deliver a ps) qs.
Proof.
  revert a. induction ps as [|p ps IH]; intros a; simpl; [tauto|].
  rewrite IH. unfold deliver. simpl. tauto.
Qed.

Lemma returns_normally_calls_return a payloads :
  returns_normally a → calls_return a payloads.
Proof.
  revert a. induction payloads as [|p payloads IH]; intros a Ha; simpl; [done|].
  split; [apply Ha|]. apply IH. intros attrs payload. apply Ha.
Qed.

(** When the calls it forwards return, the routing returns, and every
    registered worker has received the payloads under its name. *)
Lemma route_feedback_Ok items : ∀ o,
  (∀ name a, assistants o !! name = Some a → calls_return a (addressed_to name items)) →
  ∃ o', route_feedback items o = Ok tt o' ∧
    results o' = results o ∧ task_queue o' = task_queue o ∧
    ∀ name, assistants o' !! name =
            (λ a, deliver a (addressed_to name items)) <$> assistants o !! name.
Proof.
  induction items as [|[n fb] items IH]; intros o Hok.
  - exists o. repeat split. intros name. by destruct (assistants o !! name).
  - rewrite route_feedback_cons.
    destruct (assistants o !! n) as [a|] eqn:Ha.
    + pose proof (Hok n a Ha) as Hret. unfold addressed_to in Hret.
      rewrite filter_cons_True in Hret by done. destruct Hret as [Hret Hrest].
      simpl in Hret, Hrest.
      destruct (BaseAssistant.handle_feedback a (BaseAssistant.attrs a) fb)
        as [new raised] eqn:Hfb.
      simpl in Hret, Hrest. subst raised. cbn [fst snd].
      destruct (IH (set_assistants (insert n (BaseAssistant.with_attrs a new)) o))
        as (o' & -> & Hr & Hq & Hreg).
      { intros name b. simpl.
        destruct (decide (n = name)) as [->|Hne].
        - rewrite lookup_insert_eq. by intros [= <-].
        - rewrite lookup_insert_ne by done. intros Hb.
          specialize (Hok name b Hb). unfold addressed_to in Hok.
          by rewrite filter_cons_False in Hok. }
      exists o'. split; [done|]. split; [done|]. split; [done|].
      intros name. rewrite Hreg. simpl. unfold addressed_to.
      destruct (decide (n = name)) as [->|Hne].
      * rewrite lookup_insert_eq, Ha, filter_cons_True by done.
        simpl. unfold deliver at 2. simpl. by rewrite Hfb.
      * rewrite lookup_insert_ne, filter_cons_False by done. done.
    + destruct (IH o) as (o' & -> & Hr & Hq & Hreg).
      { intros name b Hb. specialize (Hok name b Hb). unfold addressed_to in Hok.
        destruct (decide (n = name)) as [->|Hne]; [congruence|].
        by rewrite filter_cons_False in Hok. }
      exists o'. split; [done|]. split; [done|]. split; [done|].
      intros name. rewrite Hreg. unfold addressed_to.
      destruct (decide (n = name)) as [->|Hne].
      * by rewrite Ha.
      * by rewrite filter_cons_False.
Qed.

(** [handle_feedback] on a known id: the items of the
    [assistant_feedback] entry, the routing, then the two assignments to
    the record. *)
Lemma handle_feedback_known id fb o r :
  results o !! id = Some r →
  handle_feedback id fb o =
    match py_items (get_assistant_feedback fb) with
    | Raises e => Err e o
    | Returns items =>
        match route_feedback items o with
        | Ok _ o1 => Ok tt (set_results (insert id (with_feedback fb r)) o1)
        | Err e o1 => Err e o1
        end
    end.
Proof.
  intros Hr. unfold handle_feedback.
  rewrite decide_True by (rewrite Hr; eauto).
  unfold bind at 1, lift_result.
  destruct (py_items (get_assistant_feedback fb)) as [items|e]; [|done].
  pose proof (route_feedback_final items o) as (Hr1 & _).
  unfold bind at 1.
  destruct (route_feedback items o) as [[] o1|e o1]; [|done].
  simpl in Hr1. unfold bind.
  rewrite (update_record_Some _ _ _ r) by congruence.
  erewrite update_record_Some by (simpl; apply lookup_insert_eq).
  f_equal. destruct o1. unfold set_results. simpl. by rewrite insert_insert_eq.
Qed.

Lemma handle_feedback_unknown id fb o :
  results o !! id = None → handle_feedback id fb o = Ok tt o.
Proof.
  intros Hr. unfold handle_feedback.
  rewrite decide_False; [done|]. rewrite Hr. by intros [? ?].
Qed.

Lemma handle_feedback_Ok id fb items o r :
  results o !! id = Some r →
  py_items (get_assistant_feedback fb) = Returns items →
  (∀ name a, assistants o !! name = Some a →
             calls_return a (addressed_to name items)) →
  ∃ o', handle_feedback id fb o = Ok tt o' ∧
    task_queue o' = task_queue o ∧
    results o' = <[id := with_feedback fb r]> (results o) ∧
    ∀ name, assistants o' !! name =
            (λ a, deliver a (addressed_to name items)) <$> assistants o !! name.
Proof.
  intros Hr Hitems Hok. rewrite (handle_feedback_known _ _ _ r), Hitems by done.
  destruct (route_feedback_Ok _ o Hok) as (o1 & -> & Hr1 & Hq1 & Hreg).
  eexists. split; [done|]. simpl. by rewrite Hr1.
Qed.

(** Whatever the workers do, [handle_feedback] leaves the queue and
    the registered names alone and at most rewrites the one record. *)
Lemma handle_feedback_final id fb o o' :
  final (handle_feedback id fb o) = o' →
  task_queue o' = task_queue o ∧
  dom (assistants o') = dom (assistants o) ∧
  (results o' = results o ∨
   ∃ r, results o !! id = Some r ∧ results o' = <[id := with_feedback fb r]> (results o)).
Proof.
  destruct (results o !! id) as [r|] eqn:Hr.
  - rewrite (handle_feedback_known _ _ _ r) by done.
    destruct (py_items (get_assistant_feedback fb)) as [items|e]; [|intros <-; auto].
    pose proof (route_feedback_final items o) as (Hr1 & Hq1 & Hd1).
    destruct (route_feedback items o) as [[] o1|e o1];
      simpl in *; intros <-; simpl; rewrite ?Hr1; eauto 10.
  - rewrite handle_feedback_unknown by done. intros <-. auto.
Qed.

(** When the routing raises, a worker has raised: the exception is the
    one a registered worker's [handle_feedback] raised on a sub-payload
    filed under its name. *)
Lemma route_feedback_Err items : ∀ o e o',
  route_feedback items o = Err e o' →
  ∃ name payload a attrs, (name, payload) ∈ items ∧
    is_Some (assistants o !! name) ∧
    assistants o' !! name = Some a ∧
    snd (BaseAssistant.handle_feedback a attrs payload) = Some e.
Proof.
  induction items as [|[n fb] items IH]; intros o e o'; [done|].
  rewrite route_feedback_cons.
  destruct (assistants o !! n) as [a|] eqn:Ha.
  - cbv zeta.
    destruct (snd (BaseAssistant.handle_feedback a (BaseAssistant.attrs a) fb))
      as [e0|] eqn:Hfb.
    + intros [= <- <-]. eexists n, fb, _, (BaseAssistant.attrs a).
      split; [by left|]. split; [eauto|]. split; [apply lookup_insert_eq|done].
    + intros Herr. apply IH in Herr as (name & payload & b & attrs & Hin & Hreg & Hb & Hraise).
      exists name, payload, b, attrs. split; [by right|]. split; [|done].
      simpl in Hreg. destruct (decide (n = name)) as [<-|Hne]; [eauto|].
      by rewrite lookup_insert_ne in Hreg.
  - intros Herr. apply IH in Herr as (name & payload & b & attrs & Hin & Hreg & Hb & Hraise).
    exists name, payload, b, attrs. split; [by right|done].
Qed.

End FeedbackRouting.

(** ** Status queries *)

Section StatusQueries.

Lemma get_assistant_status_final name o : final (get_assistant_status name o) = o.
Proof.
  unfold get_assistant_status.
  destruct (assistants o !! name); [|done]. by destruct (ASSISTANTS_lookup name).
Qed.

Lemma assistant_status_of_final names o : final (assistant_status_of names o) = o.
Proof.
  induction names as [|n names IH]; [done|].
  cbn [assistant_status_of]. unfold bind at 1.
  pose proof (get_assistant_status_final n o) as Hn.
  destruct (get_assistant_status n o) as [st o1|e o1]; simpl in Hn; subst o1; [|done].
  unfold bind at 1.
  destruct (assistant_status_of names o) as [m o1|e o1]; simpl in IH; by subst o1.
Qed.

Lemma get_system_status_final o : final (get_system_status o) = o.
Proof.
  unfold get_system_status, bind.
  pose proof (assistant_status_of_final (fst <$> map_to_list (assistants o)) o) as H.
  by destruct (assistant_status_of _ o) as [m o1|e o1]; simpl in H; subst o1.
Qed.

Lemma assistant_status_of_Ok names o :
  (∀ name, name ∈ names → is_Some (ASSISTANTS_lookup name)) →
  ∃ m, assistant_status_of names o = Ok m o.
Proof.
  induction names as [|n names IH]; intros Hcfg; [by eexists|].
  destruct IH as [m Hm]; [by intros; apply Hcfg; right|].
  destruct (Hcfg n) as [cfg Hcfg_n]; [by left|].
  cbn [assistant_status_of]. unfold bind, get_assistant_status.
  rewrite Hcfg_n.
  destruct (assistants o !! n); rewrite Hm; by eexists.
Qed.

Lemma get_system_status_Ok o :
  dom (assistants o) = ({["Earth"; "Moon"; "Sun"]} : gset string) →
  ∃ st, get_system_status o = Ok st o ∧
        active_assistants st = size (assistants o) ∧
        pending_tasks st = length (task_queue o) ∧
        completed_tasks st = length (completed_task_ids o).
Proof.
  intros Hdom. unfold get_system_status, bind.
  destruct (assistant_status_of_Ok (fst <$> map_to_list (assistants o)) o) as [m ->].
  - intros name Hin.
    apply list_elem_of_fmap in Hin as [[n a] [-> Hin]].
    apply elem_of_map_to_list in Hin. apply elem_of_dom_2 in Hin.
    rewrite Hdom in Hin. simpl.
    repeat (apply elem_of_union in Hin as [Hin|Hin]);
      apply elem_of_singleton in Hin; subst n; by eexists.
  - by eexists.
Qed.

End StatusQueries.

(** ** Dictionaries that are submitted *)

Section Dictionaries.

(** The routing reads the type of the task and nothing else. *)
Lemma determine_required_assistants_type task task' :
  type task = type task' →
  _determine_required_assistants task = _determine_required_assistants task'.
Proof. unfold _determine_required_assistants. by intros ->. Qed.

Lemma write_dict_length dict task queue :
  length (write_dict dict task queue) = length queue.
Proof. apply length_fmap. Qed.

Lemma write_dict_lookup dict task queue i d t :
  queue !! i = Some (d, t) →
  write_dict dict task queue !! i =
    Some (if decide (d = dict) then (dict, task) else (d, t)).
Proof. intros Hi. unfold write_dict. by rewrite list_lookup_fmap, Hi. Qed.

Lemma write_dict_twice dict task task' queue :
  write_dict dict task' (write_dict dict task queue) = write_dict dict task' queue.
Proof.
  unfold write_dict. rewrite <- list_fmap_compose. apply list_fmap_ext.
  intros i [d t] _. unfold compose. simpl.
  destruct (decide (d = dict)) as [->|Hne]; simpl;
    [by rewrite decide_True|by rewrite decide_False].
Qed.

Lemma write_dict_absent dict task queue :
  dict ∉ queue.*1 → write_dict dict task queue = queue.
Proof.
  intros Hout. unfold write_dict. rewrite <- (list_fmap_id queue) at 2.
  apply list_fmap_ext. intros i [d t] Hi. simpl.
  rewrite decide_False; [done|]. intros ->. apply Hout.
  apply list_elem_of_fmap. exists (dict, t). split; [done|].
  by eapply list_elem_of_lookup_2.
Qed.

(** An entry of the queue after a write: the dictionary written, or an
    entry of another dictionary, which was there before. *)
Lemma elem_of_write_dict dict task queue d t :
  (d, t) ∈ write_dict dict task queue →
  (d, t) = (dict, task) ∨ (d ≠ dict ∧ (d, t) ∈ queue).
Proof.
  unfold write_dict. intros Hin.
  apply list_elem_of_fmap in Hin as ([d0 t0] & E & Hin). simpl in E.
  case_decide; simplify_eq; auto.
Qed.

Lemma elem_of_submitted dict task queue d t :
  (d, t) ∈ (write_dict dict task queue ++ [(dict, task)])%list →
  (d, t) = (dict, task) ∨ (d ≠ dict ∧ (d, t) ∈ queue).
Proof.
  intros Hin. apply elem_of_app in Hin as [Hin|Hin].
  - by apply elem_of_write_dict.
  - apply list_elem_of_singleton in Hin. by left.
Qed.

(** The dictionary passed holds what its caller put in it, unless it
    waits in the queue, and then it holds what the queue shows. *)
Lemma held_cases dict task queue :
  ((dict ∉ queue.*1) ∧ held dict task queue = task) ∨
  (dict, held dict task queue) ∈ queue.
Proof.
  unfold held.
  destruct (find _ queue) as [[d t]|] eqn:E; simpl.
  - right. apply find_some in E as [Hin Hd].
    apply bool_decide_eq_true in Hd. simpl in Hd. subst d.
    by apply list_elem_of_In.
  - left. split; [|done]. intros Hin.
    apply list_elem_of_fmap in Hin as ([d t] & -> & Hin).
    apply list_elem_of_In in Hin.
    pose proof (find_none _ _ E _ Hin) as Hd. simpl in Hd.
    by apply bool_decide_eq_false in Hd.
Qed.

Lemma held_absent dict task queue :
  dict ∉ queue.*1 → held dict task queue = task.
Proof.
  intros Hout. destruct (held_cases dict task queue) as [[_ ?]|Hin]; [done|].
  destruct Hout. apply list_elem_of_fmap. by eexists (_, _).
Qed.

(** [submit_task] when the routing returns. *)
Lemma submit_task_Returns now_id now_ts dict task o names :
  _determine_required_assistants (held dict task (task_queue o)) = Returns names →
  submit_task now_id now_ts dict task o =
    let id := make_task_id now_id (length (task_queue o)) in
    let task' :=
      assign_task (stamp_task (held dict task (task_queue o)) id now_ts) names in
    Ok id (set_results (insert id pending_record)
             (set_task_queue
                (write_dict dict task' (task_queue o) ++ [(dict, task')]) o)).
Proof.
  intros Hroute. unfold submit_task.
  rewrite (determine_required_assistants_type _ (held dict task (task_queue o))) by done.
  rewrite Hroute. simpl. by rewrite write_dict_twice.
Qed.

(** [submit_task] when the routing raises. *)
Lemma submit_task_Raises now_id now_ts dict task o e :
  _determine_required_assistants (held dict task (task_queue o)) = Raises e →
  submit_task now_id now_ts dict task o =
    Err e (set_task_queue
             (write_dict dict
                (stamp_task (held dict task (task_queue o))
                   (make_task_id now_id (length (task_queue o))) now_ts)
                (task_queue o)) o).
Proof.
  intros Hroute. unfold submit_task.
  rewrite (determine_required_assistants_type _ (held dict task (task_queue o))) by done.
  by rewrite Hroute.
Qed.

(** Whether it returns or raises, [submit_task] leaves the workers
    alone and at most adds the pending record of the id it makes. *)
Lemma submit_task_assistants now_id now_ts dict task o :
  assistants (final (submit_task now_id now_ts dict task o)) = assistants o.
Proof. unfold submit_task. by destruct (_determine_required_assistants _). Qed.

Lemma submit_task_results now_id now_ts dict task o :
  results (final (submit_task now_id now_ts dict task o)) = results o ∨
  results (final (submit_task now_id now_ts dict task o)) =
    <[make_task_id now_id (length (task_queue o)) := pending_record]> (results o).
Proof. unfold submit_task. destruct (_determine_required_assistants _); simpl; auto. Qed.

Lemma submit_task_returned now_id now_ts dict task o id :
  returned (submit_task now_id now_ts dict task o) = Some id →
  id = make_task_id now_id (length (task_queue o)) ∧
  ∃ names, _determine_required_assistants (held dict task (task_queue o)) = Returns names.
Proof.
  destruct (_determine_required_assistants (held dict task (task_queue o)))
    as [names|e] eqn:Hroute.
  - rewrite (submit_task_Returns _ _ _ _ _ names) by done. simpl. intros [= <-]. eauto.
  - by rewrite (submit_task_Raises _ _ _ _ _ e).
Qed.

End Dictionaries.

(** ** Reachable orchestrators are consistent *)

Section Invariant.

Local Ltac status_listed := unfold task_statuses; repeat constructor.

Lemma init_registry E M S :
  dom (assistants (__init__ E M S)) = ({["Earth"; "Moon"; "Sun"]} : gset string).
Proof.
  by vm_compute.
Qed.

Lemma init_consistent E M S : consistent (__init__ E M S).
Proof.
  split.
  - apply init_registry.
  - intros task Hin. by apply elem_of_nil in Hin.
  - intros task r Hin. by apply elem_of_nil in Hin.
  - intros i dict task Hi. simpl in Hi. by rewrite lookup_nil in Hi.
  - intros dict task task' Hin. by apply elem_of_nil in Hin.
  - intros task Hin. by apply elem_of_nil in Hin.
  - intros id r Hr. simpl in Hr. by rewrite lookup_empty in Hr.
Qed.

Lemma consistent_registry_size o : consistent o → size (assistants o) = 3%nat.
Proof.
  intros Hc. rewrite <- size_dom, (registry_names o Hc).
  by vm_compute.
Qed.

(** Two references of the queue to dictionaries with the same id are
    references to the same dictionary. *)
Lemma consistent_same_entry o i j entry entry' :
  consistent o →
  task_queue o !! i = Some entry → task_queue o !! j = Some entry' →
  task_id (snd entry) = task_id (snd entry') → entry = entry'.
Proof.
  intros Hc Hi Hj Hid. destruct entry as [d t], entry' as [d' t']. simpl in Hid.
  destruct (queued_ids o Hc _ _ _ Hi) as (now & k & Hk & Hat).
  destruct (queued_ids o Hc _ _ _ Hj) as (now' & k' & Hk' & Hat').
  assert (k = k') as <-.
  { apply (make_task_id_length now now'). congruence. }
  congruence.
Qed.

Lemma consistent_same_id o task task' :
  consistent o →
  task ∈ queued_tasks o → task' ∈ queued_tasks o →
  task_id task = task_id task' → task = task'.
Proof.
  intros Hc Hin Hin' Hid.
  apply list_elem_of_fmap in Hin as (entry & -> & Hin).
  apply list_elem_of_fmap in Hin' as (entry' & -> & Hin').
  apply list_elem_of_lookup in Hin as [i Hi].
  apply list_elem_of_lookup in Hin' as [j Hj].
  by rewrite (consistent_same_entry o i j entry entry' Hc Hi Hj Hid).
Qed.

Lemma set_task_queue_same o : set_task_queue (task_queue o) o = o.
Proof. by destruct o. Qed.

(** A dictionary whose type cannot be routed does not wait in the
    queue, so that a submission that raises leaves the orchestrator as
    it was. *)
Lemma submit_task_Raises_consistent now_id now_ts dict task o e :
  consistent o →
  _determine_required_assistants (held dict task (task_queue o)) = Raises e →
  (dict ∉ (task_queue o).*1) ∧ submit_task now_id now_ts dict task o = Err e o.
Proof.
  intros Hc Hroute.
  assert (dict ∉ (task_queue o).*1) as Hout.
  { destruct (held_cases dict task (task_queue o)) as [[? _]|Hin]; [done|].
    rewrite (queued_routed o Hc (held dict task (task_queue o))) in Hroute; [done|].
    apply list_elem_of_fmap. by eexists (_, _). }
  split; [done|].
  rewrite (submit_task_Raises _ _ _ _ _ e) by done.
  by rewrite write_dict_absent, set_task_queue_same.
Qed.

Lemma submit_task_consistent now_id now_ts dict task o :
  consistent o → consistent (final (submit_task now_id now_ts dict task o)).
Proof.
  intros Hc.
  destruct (_determine_required_assistants (held dict task (task_queue o)))
    as [names|e] eqn:Hroute.
  2: { by rewrite (proj2 (submit_task_Raises_consistent _ _ _ _ _ e Hc Hroute)). }
  rewrite (submit_task_Returns _ _ _ _ _ names) by done. cbv zeta.
  set (id := make_task_id now_id (length (task_queue o))).
  set (task' := assign_task (stamp_task (held dict task (task_queue o)) id now_ts) names).
  destruct Hc as [Hdom Hrec Hun Hids Hshared Hrouted Hst]. split; simpl.
  - done.
  - intros t Hin. apply list_elem_of_fmap in Hin as ([d t0] & -> & Hin).
    apply elem_of_submitted in Hin as [[= -> ->]|[_ Hin]]; simpl.
    + apply lookup_insert_is_Some'. by left.
    + apply lookup_insert_is_Some'. right. apply Hrec.
      apply list_elem_of_fmap. by exists (d, t0).
  - intros t r Hin Hr. apply lookup_insert_Some in Hr as [[_ <-]|[Hne Hr]].
    + simpl. repeat constructor.
    + apply list_elem_of_fmap in Hin as ([d t0] & -> & Hin).
      apply elem_of_submitted in Hin as [[= -> ->]|[_ Hin]]; [done|].
      apply (Hun t0); [|done]. apply list_elem_of_fmap. by exists (d, t0).
  - intros i d t Hi. apply lookup_app_Some in Hi as [Hi|[Hlen Hi]].
    + pose proof (lookup_lt_Some _ _ _ Hi) as Hlt. rewrite write_dict_length in Hlt.
      destruct (lookup_lt_is_Some_2 (task_queue o) i Hlt) as [[d0 t0] Hi0].
      rewrite (write_dict_lookup _ _ _ _ _ _ Hi0) in Hi.
      case_decide as Hd; injection Hi as <- <-.
      * exists now_id, (length (task_queue o)). split; [done|].
        rewrite lookup_app_r by (by rewrite write_dict_length).
        by rewrite write_dict_length, Nat.sub_diag.
      * destruct (Hids _ _ _ Hi0) as (now & j & Hj & Hat).
        exists now, j. split; [done|].
        apply lookup_app_l_Some. rewrite (write_dict_lookup _ _ _ _ _ _ Hat).
        by rewrite decide_False.
    + apply list_lookup_singleton_Some in Hi as [Hi [= <- <-]].
      rewrite write_dict_length in Hlen, Hi.
      exists now_id, (length (task_queue o)). split; [done|].
      rewrite lookup_app_r by (by rewrite write_dict_length).
      by rewrite write_dict_length, Nat.sub_diag.
  - intros d t t2 Hin Hin2.
    apply elem_of_submitted in Hin as [[= -> ->]|[Hne Hin]];
      apply elem_of_submitted in Hin2 as [[= ?]|[Hne2 Hin2]]; subst; try done.
    by eapply Hshared.
  - intros t Hin. apply list_elem_of_fmap in Hin as ([d t0] & -> & Hin).
    apply elem_of_submitted in Hin as [[= -> ->]|[_ Hin]]; simpl.
    + by rewrite <- Hroute.
    + apply Hrouted. apply list_elem_of_fmap. by exists (d, t0).
  - intros id' r Hr. apply lookup_insert_Some in Hr as [[_ <-]|[_ Hr]].
    + simpl. status_listed.
    + by eapply Hst.
Qed.

Lemma processed_status now task o r :
  status (processed now task o r) = "success" ∨
  status (processed now task o r) = "partial_success".
Proof. unfold processed, combined_record, combine. simpl. case (all_successful _); auto. Qed.

(** [process_tasks] on a consistent orchestrator: it returns, the
    queue is empty, and every dictionary it found has the record of a
    round on it, made at a place where the queue referred to it. *)
Lemma process_tasks_Ok clock o :
  consistent o →
  ∃ o', process_tasks clock o = Ok tt o' ∧
    assistants o' = assistants o ∧
    task_queue o' = [] ∧
    (∀ id, id ∉ task_id <$> queued_tasks o → results o' !! id = results o !! id) ∧
    (∀ task, task ∈ queued_tasks o →
       ∃ r i, queued_tasks o !! i = Some task ∧
              results o !! task_id task = Some r ∧
              results o' !! task_id task = Some (processed (clock i) task o r)).
Proof.
  intros Hc. unfold process_tasks.
  rewrite decide_False by (rewrite (consistent_registry_size o Hc); lia).
  destruct (process_queue_Ok clock (task_queue o) 0 o)
    as (o' & E & Ha & Hq & Hother & Hmine).
  - apply (queued_recorded o Hc).
  - intros t t'. by apply consistent_same_id.
  - exists o'. repeat split; try done.
    by destruct (task_queue o).
Qed.

Lemma process_tasks_consistent clock o :
  consistent o → consistent (final (process_tasks clock o)).
Proof.
  intros Hc. destruct (process_tasks_Ok clock o Hc) as (o' & -> & Ha & Hq & Hother & Hmine).
  simpl. split; unfold queued_tasks; rewrite ?Hq.
  - rewrite Ha. apply (registry_names o Hc).
  - intros t Hin. by apply elem_of_nil in Hin.
  - intros t r Hin. by apply elem_of_nil in Hin.
  - intros i d t Hi. by rewrite lookup_nil in Hi.
  - intros d t t' Hin. by apply elem_of_nil in Hin.
  - intros t Hin. by apply elem_of_nil in Hin.
  - intros id r Hr.
    destruct (decide (id ∈ task_id <$> queued_tasks o)) as [Hin|Hout].
    + apply list_elem_of_fmap in Hin as (t & -> & Hin).
      destruct (Hmine t Hin) as (r0 & i & _ & _ & Hr').
      rewrite Hr in Hr'. injection Hr' as ->.
      destruct (processed_status (clock i) t o r0) as [-> | ->]; status_listed.
    + rewrite Hother in Hr by done. by eapply (recorded_statuses o Hc).
Qed.

Lemma handle_feedback_consistent id fb o :
  consistent o → consistent (final (handle_feedback id fb o)).
Proof.
  intros [Hdom Hrec Hun Hids Hshared Hrouted Hst].
  destruct (handle_feedback_final id fb o _ eq_refl) as (Hq & Hd & Hres).
  split; unfold queued_tasks; rewrite ?Hq.
  - by rewrite Hd.
  - intros t Hin. destruct Hres as [-> | (r & Hr & ->)].
    + by apply Hrec.
    + apply lookup_insert_is_Some'. right. by apply Hrec.
  - intros t r' Hin Hr'.
    destruct Hres as [Heq | (r & Hr & Heq)]; rewrite Heq in Hr'; [by eapply Hun|].
    apply lookup_insert_Some in Hr' as [[_ <-]|[_ Hr']]; [|by eapply Hun].
    simpl. repeat constructor.
  - done.
  - done.
  - done.
  - intros id' r' Hr'. destruct Hres as [Heq | (r & Hr & Heq)]; rewrite Heq in Hr'.
    + by eapply Hst.
    + apply lookup_insert_Some in Hr' as [[_ <-]|[_ Hr']].
      * simpl. status_listed.
      * by eapply Hst.
Qed.

Lemma after_consistent c o : consistent o → consistent (after c o).
Proof.
  intros Hc. destruct c; simpl.
  - by apply submit_task_consistent.
  - by apply process_tasks_consistent.
  - done.
  - by apply handle_feedback_consistent.
  - by rewrite get_assistant_status_final.
  - by rewrite get_system_status_final.
Qed.

Lemma reachable_consistent o : reachable o → consistent o.
Proof.
  induction 1 as [E M S|c o _ IH].
  - apply init_consistent.
  - by apply after_consistent.
Qed.

End Invariant.

(** ** Aggregation *)

Section Aggregation.

Lemma is_success_iff res :
  is_success res = true ↔ res !! "status" = Some (VStr "success").
Proof.
  unfold is_success, py_get.
  destruct (res !! "status") as [[| | | |s| |]|]; simpl;
    try (split; [discriminate | by intros [=]]).
  rewrite String.eqb_eq. split; [by intros -> | by intros [= ->]].
Qed.

Lemma all_successful_iff (ar : gmap string pydict) :
  all_successful ar = true ↔
  ∀ name res, ar !! name = Some res → res !! "status" = Some (VStr "success").
Proof.
  unfold all_successful. rewrite forallb_forall. split.
  - intros H name res Hl. apply is_success_iff.
    apply (H (name, res)). by apply list_elem_of_In, elem_of_map_to_list.
  - intros H [name res] Hin. apply is_success_iff, (H name).
    by apply elem_of_map_to_list, list_elem_of_In.
Qed.

(** Claim C1.  When [_combine_results] runs for a recorded task, it
    returns, keeps the per-worker results, and sets the status of the
    record and of its final result to ["success"] if and only if every
    per-worker result has status ["success"]; in every other case, all
    workers in error included, it sets them to ["partial_success"]. *)
Theorem combine_results_status now id o r :
  results o !! id = Some r →
  ∃ o' r', _combine_results now id o = Ok tt o' ∧
    results o' !! id = Some r' ∧
    assistant_results r' = assistant_results r ∧
    combined_status <$> final_result r' = Some (status r') ∧
    (status r' = "success" ↔
       ∀ name res, assistant_results r !! name = Some res →
                   res !! "status" = Some (VStr "success")) ∧
    (status r' = "success" ∨ status r' = "partial_success").
Proof.
  intros Hr.
  destruct (combine_results_Some now id o r Hr) as (o' & E & _ & _ & Hres).
  exists o', (combined_record now r).
  split; [done|]. split; [by rewrite Hres, lookup_insert_eq|].
  split; [done|]. split; [done|].
  unfold combined_record, combine. simpl.
  rewrite <- all_successful_iff.
  destruct (all_successful (assistant_results r)); split; auto; done.
Qed.

End Aggregation.

(** The record of a task whose Earth succeeded and whose Moon raised. *)
Lemma combine_results_status_witness :
  ∃ o' r', _combine_results (1005 # 10) "task_100_0"
             (set_results (insert "task_100_0"
                {| status := "pending";
                   assistant_results :=
                     {[ "Earth" := {[ "status" := VStr "success" ]};
                        "Moon" := error_result (Exn "RuntimeError" "model unavailable") ]};
                   final_result := None; feedback := None |}) steady_orchestrator)
           = Ok tt o' ∧
    results o' !! "task_100_0" = Some r' ∧ status r' = "partial_success".
Proof.
  edestruct (combine_results_status (1005 # 10) "task_100_0"
               (set_results (insert "task_100_0"
                  {| status := "pending";
                     assistant_results :=
                       {[ "Earth" := {[ "status" := VStr "success" ]};
                          "Moon" := error_result (Exn "RuntimeError" "model unavailable") ]};
                     final_result := None; feedback := None |}) steady_orchestrator))
    as (o' & r' & E & Hr' & _ & _ & Hiff & Hor).
  { simpl. apply lookup_insert_eq. }
  exists o', r'. split; [exact E|]. split; [exact Hr'|].
  destruct Hor as [Hs|Hp]; [|exact Hp].
  exfalso.
  pose proof (proj1 Hiff Hs "Moon"
                (error_result (Exn "RuntimeError" "model unavailable")) eq_refl) as H.
  vm_compute in H. discriminate H.
Defined.

(** ** Routing and submission *)

Section Submission.

Lemma task_assistant_mapping_unmapped (task_type : string) :
  task_type ∉ ["code_generation"; "syntax_check"; "performance_optimization"; "full_pipeline"] →
  task_assistant_mapping !! task_type = None.
Proof.
  intros Hout. unfold task_assistant_mapping.
  repeat (apply not_elem_of_cons in Hout as [? Hout]).
  by rewrite !lookup_insert_ne, lookup_singleton_ne.
Qed.

(** [_determine_required_assistants] as a table: the configured list
    for each of the four types, [["Earth"]] for every other string, for
    a missing type and for a type that is a number, a boolean or
    [None], and a [TypeError] for a type that is a list or a
    dictionary. *)
Lemma determine_required_assistants_table task :
  _determine_required_assistants task =
    match default (VStr "") (type task) with
    | VStr s =>
        Returns (if decide (s = "code_generation") then ["Earth"]
                 else if decide (s = "syntax_check") then ["Moon"]
                 else if decide (s = "performance_optimization") then ["Sun"]
                 else if decide (s = "full_pipeline") then ["Earth"; "Moon"; "Sun"]
                 else ["Earth"])
    | VList _ => Raises (TypeError "unhashable type: 'list'")
    | VDict _ => Raises (TypeError "unhashable type: 'dict'")
    | _ => Returns ["Earth"]
    end.
Proof.
  unfold _determine_required_assistants.
  destruct (default (VStr "") (type task)) as [| | | |s| |]; try done.
  unfold dict_get. f_equal.
  repeat case_decide; simplify_eq; try by vm_compute.
  rewrite task_assistant_mapping_unmapped; [done|].
  repeat (apply not_elem_of_cons; split; [congruence|]). apply not_elem_of_nil.
Qed.

(** What the routing returns is never empty and names registered
    workers only. *)
Lemma determine_required_assistants_names task names :
  _determine_required_assistants task = Returns names →
  names ≠ [] ∧ ∀ name, name ∈ names → name ∈ ["Earth"; "Moon"; "Sun"].
Proof.
  rewrite determine_required_assistants_table.
  destruct (default (VStr "") (type task)) as [| | | |s| |]; try done;
    intros [= <-]; repeat case_decide; (split; [done|]);
    intros name Hin;
    repeat (apply elem_of_cons in Hin as [->|Hin]; [repeat constructor|]);
    by apply elem_of_nil in Hin.
Qed.

(** Claim C4 fails on the code for a task whose type is a list (or a
    dictionary): the lookup in the table raises [TypeError] where the
    claim has the default [["Earth"]], and [submit_task] raises with it,
    so that this submission gets no assigned workers at all: nothing is
    queued and nothing is recorded. *)
Theorem determine_required_assistants_unhashable :
  reachable steady_orchestrator ∧
  _determine_required_assistants listed_type_request =
    Raises (TypeError "unhashable type: 'list'") ∧
  submit_task (1002 # 10) (1002 # 10) 1%nat listed_type_request steady_orchestrator =
    Err (TypeError "unhashable type: 'list'") steady_orchestrator.
Proof.
  split; [apply reachable_init|]. split; by vm_compute.
Qed.

(** Claim C8.  Whenever [submit_task] returns, and it returns whenever
    the routing of the dictionary does, the id it returns is one under
    which [self.results] holds a record with status ["pending"], no
    per-worker result, no final result and no feedback; the dictionary,
    stamped with that id, is the new last element of the queue, behind
    the references already waiting, which are as before when the
    dictionary is not among them. *)
Theorem submit_task_stores_pending now_id now_ts dict task o :
  (∀ names,
     _determine_required_assistants (held dict task (task_queue o)) = Returns names →
     ∃ id o', submit_task now_id now_ts dict task o = Ok id o') ∧
  ∀ id o',
    submit_task now_id now_ts dict task o = Ok id o' →
    ∃ task',
      results o' !! id =
        Some {| status := "pending"; assistant_results := ∅;
                final_result := None; feedback := None |} ∧
      task_queue o' = (write_dict dict task' (task_queue o) ++ [(dict, task')])%list ∧
      ((dict ∉ (task_queue o).*1) →
         held dict task (task_queue o) = task ∧
         task_queue o' = (task_queue o ++ [(dict, task')])%list) ∧
      task_id task' = id ∧ task_status task' = "pending" ∧
      type task' = type (held dict task (task_queue o)) ∧
      payload task' = payload (held dict task (task_queue o)) ∧
      _determine_required_assistants task' = Returns (assigned_assistants task') ∧
      assistants o' = assistants o ∧
      ∀ id', id' ≠ id → results o' !! id' = results o !! id'.
Proof.
  split.
  { intros names Hroute. eexists _, _. by apply submit_task_Returns. }
  intros id o' Hsubmit.
  destruct (submit_task_returned _ _ _ _ _ _ (f_equal returned Hsubmit))
    as (-> & names & Hroute).
  rewrite (submit_task_Returns _ _ _ _ _ names) in Hsubmit by done.
  cbv zeta in Hsubmit. injection Hsubmit as <-.
  eexists.
  split; [simpl; apply lookup_insert_eq|]. split; [reflexivity|].
  split; [intros Hout; simpl; by rewrite write_dict_absent, held_absent|].
  do 4 (split; [reflexivity|]).
  split; [|split; [reflexivity|]].
  - cbn [assign_task assigned_assistants]. rewrite <- Hroute.
    by apply determine_required_assistants_type.
  - intros id' Hne. simpl. by rewrite lookup_insert_ne.
Qed.

End Submission.

(** The task of the scenario, submitted to a fresh orchestrator. *)
Lemma submit_task_stores_pending_witness :
  ∃ id o', submit_task (1002 # 10) (1002 # 10) 1%nat full_pipeline_request
             steady_orchestrator = Ok id o' ∧
           results o' !! id = Some pending_record ∧
           length (task_queue o') = 1%nat.
Proof.
  destruct (submit_task_stores_pending (1002 # 10) (1002 # 10) 1%nat full_pipeline_request
              steady_orchestrator) as (Hreturns & Hstored).
  destruct (Hreturns ["Earth"; "Moon"; "Sun"]) as (id & o' & E).
  { vm_compute. reflexivity. }
  destruct (Hstored id o' E) as (task' & Hrec & Hq & _).
  exists id, o'. split; [exact E|]. split; [exact Hrec|].
  rewrite Hq. reflexivity.
Defined.

(** ** Status of a task *)

Section TaskStatus.

(** Claim C7.  [get_task_status] always returns and leaves the
    orchestrator as it was: the record when the id is known, and
    otherwise the not-found dictionary, whose status is ["not_found"]
    and which carries an error message.  Calling it again and again
    changes nothing either. *)
Theorem get_task_status_total id o :
  ∃ reply, get_task_status id o = Ok reply o ∧
    match results o !! id with
    | Some r => reply = TaskRecord r
    | None => reply = TaskNotFound "not_found" ("Task " +:+ id +:+ " not found") ∧
              reply_status reply = "not_found"
    end ∧
    ∀ n, Nat.iter n (λ o, final (get_task_status id o)) o = o.
Proof.
  unfold get_task_status. eexists. split; [reflexivity|]. split.
  - by destruct (results o !! id).
  - intros n. induction n as [|n IH]; [done|]. exact IH.
Qed.

End TaskStatus.

(** A status query for an id that was never issued. *)
Lemma get_task_status_total_witness :
  ∃ reply, get_task_status "task_7_7" queued_orchestrator = Ok reply queued_orchestrator ∧
           reply_status reply = "not_found".
Proof.
  destruct (get_task_status_total "task_7_7" queued_orchestrator) as (reply & E & Hcase & _).
  exists reply. split; [exact E|].
  assert (results queued_orchestrator !! "task_7_7" = None) as Hnone by (by vm_compute).
  rewrite Hnone in Hcase. exact (proj2 Hcase).
Defined.

(** ** Isolation of worker failures *)

Section Isolation.

Lemma error_result_status e : error_result e !! "status" = Some (VStr "error").
Proof. unfold error_result. apply lookup_insert_eq. Qed.

(** A task one of whose workers raised is not all-successful. *)
Lemma processed_partial now task o r name e :
  name ∈ assigned_assistants task →
  _process_task_with_assistant task name o = Raises e →
  status (processed now task o r) = "partial_success".
Proof.
  intros Hin Hraise. unfold processed, combined_record, combine. simpl.
  destruct (all_successful _) eqn:Hall; [|done].
  rewrite all_successful_iff in Hall.
  specialize (Hall name (error_result e)).
  rewrite error_result_status in Hall.
  discriminate Hall.
  rewrite (report_all_elem _ _ _ _ _ Hin). unfold reported. by rewrite Hraise.
Qed.

(** Claim C2.  On every reachable orchestrator [process_tasks] returns
    without raising, and for every task it found in the queue the record
    holds, for each assigned worker, what that worker returned, or, when
    the invocation raised, the dictionary with status ["error"] and the
    message of the exception under ["error"]; a raise leaves the other
    workers' entries in place and makes the status of the task
    ["partial_success"].  The queue ends empty and the records of
    other ids are not touched. *)
Theorem process_tasks_isolates_failures clock o :
  reachable o →
  ∃ o', process_tasks clock o = Ok tt o' ∧
    task_queue o' = [] ∧
    (∀ id, id ∉ task_id <$> queued_tasks o → results o' !! id = results o !! id) ∧
    ∀ task, task ∈ queued_tasks o →
      ∃ r', results o' !! task_id task = Some r' ∧
        components <$> final_result r' = Some (assistant_results r') ∧
        (∀ name res, name ∈ assigned_assistants task →
           _process_task_with_assistant task name o = Returns res →
           assistant_results r' !! name = Some res) ∧
        (∀ name e, name ∈ assigned_assistants task →
           _process_task_with_assistant task name o = Raises e →
           assistant_results r' !! name =
             Some {[ "status" := VStr "error"; "error" := VStr (exn_str e) ]} ∧
           status r' = "partial_success").
Proof.
  intros Hreach. pose proof (reachable_consistent o Hreach) as Hc.
  destruct (process_tasks_Ok clock o Hc) as (o' & E & _ & Hq & Hother & Hmine).
  exists o'. split; [done|]. split; [done|]. split; [done|].
  intros task Hin.
  destruct (Hmine task Hin) as (r & i & _ & _ & Hr').
  exists (processed (clock i) task o r). split; [done|]. split; [done|]. split.
  - intros name res Hname Hret. simpl.
    rewrite (report_all_elem _ _ _ _ _ Hname). unfold reported. by rewrite Hret.
  - intros name e Hname Hraise. split.
    + simpl. rewrite (report_all_elem _ _ _ _ _ Hname). unfold reported. by rewrite Hraise.
    + by eapply processed_partial.
Qed.

End Isolation.

(** The full-pipeline task whose Moon worker raises: Earth's result is
    stored, Moon's failure is recorded, the task is a partial success. *)
Lemma process_tasks_isolates_failures_witness :
  ∃ o' r', process_tasks half_past queued_orchestrator = Ok tt o' ∧
    results o' !! "task_100_0" = Some r' ∧
    assistant_results r' !! "Earth" =
      Some {[ "status" := VStr "success"; "generated_code" := VStr "earth" ]} ∧
    assistant_results r' !! "Moon" =
      Some {[ "status" := VStr "error"; "error" := VStr "model unavailable" ]} ∧
    status r' = "partial_success".
Proof.
  destruct (process_tasks_isolates_failures half_past queued_orchestrator
              (reachable_after _ _ (reachable_init _ _ _))) as (o' & E & _ & _ & Htasks).
  destruct (Htasks queued_request) as (r' & Hr' & _ & Hret & Hraise).
  { vm_compute. constructor. }
  exists o', r'. split; [exact E|]. split; [exact Hr'|]. split.
  - apply Hret; [vm_compute; repeat constructor | vm_compute; reflexivity].
  - apply (Hraise "Moon" (Exn "RuntimeError" "model unavailable"));
      [vm_compute; repeat constructor | vm_compute; reflexivity].
Defined.

(** ** Feedback *)

Section Feedback.

(** Claim C9.  [handle_feedback] with an id that [self.results] does
    not hold returns without raising and leaves the orchestrator exactly
    as it was, workers included: no record, queue entry or worker
    attribute changes, and nothing is reported to the caller. *)
Theorem handle_feedback_unknown_id id fb o :
  results o !! id = None →
  handle_feedback id fb o = Ok tt o.
Proof. apply handle_feedback_unknown. Qed.

(** Claim C6, as the code has it.  For a recorded id, provided the
    value under [assistant_feedback] is a dictionary (or the key is
    missing) and the calls it forwards to the workers return,
    [handle_feedback] returns; every registered worker has then
    received exactly the sub-payloads filed under its name, in order,
    names that are not registered being passed over; the record keeps
    its results, holds the feedback and has status
    ["completed_with_feedback"].  A second call returns as well and
    leaves its own feedback in the record. *)
Theorem handle_feedback_routes id fb fb' items items' o r :
  results o !! id = Some r →
  py_items (get_assistant_feedback fb) = Returns items →
  py_items (get_assistant_feedback fb') = Returns items' →
  (∀ name a, assistants o !! name = Some a →
     calls_return a (addressed_to name items ++ addressed_to name items')%list) →
  ∃ o', handle_feedback id fb o = Ok tt o' ∧
    task_queue o' = task_queue o ∧
    results o' =
      <[id := {| status := "completed_with_feedback";
                 assistant_results := assistant_results r;
                 final_result := final_result r;
                 feedback := Some fb |}]> (results o) ∧
    (∀ name, assistants o' !! name =
             (λ a, deliver a (addressed_to name items)) <$> assistants o !! name) ∧
    ∃ o'', handle_feedback id fb' o' = Ok tt o'' ∧
      results o'' =
        <[id := {| status := "completed_with_feedback";
                   assistant_results := assistant_results r;
                   final_result := final_result r;
                   feedback := Some fb' |}]> (results o).
Proof.
  intros Hr Hitems Hitems' Hok.
  destruct (handle_feedback_Ok id fb items o r Hr Hitems) as (o' & E & Hq & Hres & Hreg).
  { intros name a Ha. by apply (proj1 (calls_return_app a _ _) (Hok name a Ha)). }
  exists o'. split; [done|]. split; [done|]. split; [done|]. split; [done|].
  destruct (handle_feedback_Ok id fb' items' o' (with_feedback fb r))
    as (o'' & E' & _ & Hres' & _); [|done|..].
  { rewrite Hres. apply lookup_insert_eq. }
  { intros name a. rewrite Hreg.
    destruct (assistants o !! name) as [a0|] eqn:Ha0; [|done].
    intros [= <-]. by apply (proj1 (calls_return_app a0 _ _) (Hok name a0 Ha0)). }
  exists o''. split; [done|].
  by rewrite Hres', Hres, insert_insert_eq.
Qed.

End Feedback.

(** The feedback of the scenario, with Earth and an unregistered name,
    on the queued task: Earth, which keeps what it is given, has the
    payload filed under its name, Sun has nothing, and the record has
    the new status. *)
Lemma handle_feedback_routes_witness :
  ∃ o', handle_feedback "task_100_0" mixed_feedback queued_orchestrator = Ok tt o' ∧
    BaseAssistant.attrs <$> assistants o' !! "Earth" =
      Some (VList [VDict [("is_successful", VBool true)]]) ∧
    BaseAssistant.attrs <$> assistants o' !! "Sun" = Some (VList []) ∧
    status <$> results o' !! "task_100_0" = Some "completed_with_feedback".
Proof.
  destruct (handle_feedback_routes "task_100_0" mixed_feedback second_feedback
              [("Pluto", VStr "ignored"); ("Earth", VDict [("is_successful", VBool true)])]
              [] queued_orchestrator pending_record) as (o' & E & _ & Hres & Hreg & _).
  - vm_compute. reflexivity.
  - reflexivity.
  - reflexivity.
  - intros name a Ha. apply returns_normally_calls_return. revert name a Ha.
    apply map_Forall_to_list. vm_compute.
    repeat (constructor; [intros; reflexivity|]). constructor.
  - exists o'. split; [exact E|]. rewrite !Hreg, Hres, lookup_insert_eq.
    split; [vm_compute; reflexivity|]. split; [vm_compute; reflexivity|reflexivity].
Defined.

(** Claim C6, as stated, fails where a worker's [handle_feedback]
    raises: nothing catches it.  The id of the scenario is recorded,
    Earth and Sun are registered and named in the feedback, and Sun
    cannot write its dataset file; the call raises what Sun raised, and
    the record has neither the feedback nor the status
    ["completed_with_feedback"], although Earth has taken its payload.
    It fails as well where [assistant_feedback] is not a dictionary:
    the call raises [AttributeError] and nothing is forwarded or
    stored. *)
Lemma handle_feedback_propagates :
  reachable deaf_orchestrator ∧
  results deaf_orchestrator !! "task_100_0" = Some pending_record ∧
  (∃ o', handle_feedback "task_100_0" sun_feedback deaf_orchestrator =
           Err (Exn "FileNotFoundError"
                  "[Errno 2] No such file or directory: 'datasets/sun/performance_metrics.json'")
             o' ∧
         results o' !! "task_100_0" = Some pending_record ∧
         BaseAssistant.attrs <$> assistants o' !! "Earth" =
           Some (VList [VDict [("is_successful", VBool true)]])) ∧
  handle_feedback "task_100_0" listed_feedback deaf_orchestrator =
    Err (AttributeError "'list' object has no attribute 'items'") deaf_orchestrator.
Proof.
  split; [apply reachable_after, reachable_init|].
  split; [by vm_compute|]. split; [|by vm_compute].
  eexists. split; [by vm_compute|]. split; by vm_compute.
Qed.

(** Feedback for an id that was never issued. *)
Lemma handle_feedback_unknown_id_witness :
  handle_feedback "task_7_7" mixed_feedback queued_orchestrator = Ok tt queued_orchestrator.
Proof.
  apply (handle_feedback_unknown_id "task_7_7" mixed_feedback queued_orchestrator).
  vm_compute. reflexivity.
Defined.

(** ** The counter of completed tasks *)

Section Completed.

Lemma counts_as_completed_iff r :
  counts_as_completed r = true ↔
  status r = "success" ∨ status r = "completed_with_feedback".
Proof.
  unfold counts_as_completed. rewrite bool_decide_eq_true, !elem_of_cons.
  split; [intros [?|[?|Hnil]]|intros [?|?]]; auto. by apply elem_of_nil in Hnil.
Qed.

Lemma completed_task_ids_NoDup o : NoDup (completed_task_ids o).
Proof.
  unfold completed_task_ids.
  apply (sublist_NoDup _ ((map_to_list (results o)).*1)).
  - apply NoDup_fst_map_to_list.
  - apply fmap_sublist, sublist_filter.
Qed.

Lemma elem_of_completed_task_ids o id :
  id ∈ completed_task_ids o ↔
  ∃ r, results o !! id = Some r ∧
       (status r = "success" ∨ status r = "completed_with_feedback").
Proof.
  unfold completed_task_ids. rewrite list_elem_of_fmap. split.
  - intros ([id' r] & -> & Hin). apply list_elem_of_filter in Hin as [Hc Hin].
    apply elem_of_map_to_list in Hin. exists r. split; [done|].
    by apply counts_as_completed_iff.
  - intros (r & Hr & Hs). exists (id, r). split; [done|].
    apply list_elem_of_filter. split.
    + by apply counts_as_completed_iff.
    + by apply elem_of_map_to_list.
Qed.

(** Rewriting one record moves the counter by the difference of what
    the old and the new record count for. *)
Lemma completed_task_ids_insert o id r r' :
  results o !! id = Some r →
  (length (completed_task_ids (set_results (insert id r') o)) + count_of r =
   length (completed_task_ids o) + count_of r')%nat.
Proof.
  intros Hr. unfold completed_task_ids. rewrite !length_fmap. simpl.
  rewrite <- (insert_delete_eq (results o)).
  rewrite map_to_list_insert by apply lookup_delete_eq.
  rewrite <- (map_to_list_delete (results o) id r Hr).
  rewrite !filter_cons. simpl. unfold count_of.
  destruct (counts_as_completed r), (counts_as_completed r');
    repeat case_decide; try done; simpl; lia.
Qed.

End Completed.

Section CompletedTasks.

(** Claim C5, as the code has it.  On every reachable orchestrator
    [get_system_status] returns and changes nothing, however often it is
    called; its [completed_tasks] is the number of ids whose record has
    status ["success"] or ["completed_with_feedback"], each id once, so
    a record with status ["partial_success"] is not counted.  Rewriting
    one record moves the counter by what the new record counts for minus
    what the old one did: up by exactly one when a task enters one of
    the two statuses, and not at all when feedback takes a task from
    ["success"] to ["completed_with_feedback"]. *)
Theorem completed_tasks_counts_success_and_feedback o :
  reachable o →
  ∃ st, get_system_status o = Ok st o ∧
    (∀ n, Nat.iter n (λ o, final (get_system_status o)) o = o) ∧
    completed_tasks st = length (completed_task_ids o) ∧
    NoDup (completed_task_ids o) ∧
    (∀ id, id ∈ completed_task_ids o ↔
           ∃ r, results o !! id = Some r ∧
                (status r = "success" ∨ status r = "completed_with_feedback")) ∧
    (∀ id r r', results o !! id = Some r →
       (length (completed_task_ids (set_results (insert id r') o)) + count_of r =
        length (completed_task_ids o) + count_of r')%nat) ∧
    (∀ id r fb, results o !! id = Some r → status r = "success" →
       length (completed_task_ids (final (handle_feedback id fb o))) =
       length (completed_task_ids o)).
Proof.
  intros Hreach. pose proof (reachable_consistent o Hreach) as Hc.
  destruct (get_system_status_Ok o (registry_names o Hc)) as (st & E & _ & _ & Hcount).
  exists st. split; [done|]. split.
  { intros n. induction n as [|n IH]; [done|].
    simpl. rewrite IH. apply get_system_status_final. }
  split; [done|]. split; [apply completed_task_ids_NoDup|].
  split; [apply elem_of_completed_task_ids|].
  split; [apply completed_task_ids_insert|].
  intros id r fb Hr Hs.
  destruct (handle_feedback_final id fb o _ eq_refl) as (_ & _ & [Hsame|(r0 & Hr0 & Hnew)]).
  - unfold completed_task_ids. by rewrite Hsame.
  - rewrite Hr in Hr0. injection Hr0 as <-.
    pose proof (completed_task_ids_insert o id r (with_feedback fb r) Hr) as Hlaw.
    unfold completed_task_ids in *. simpl in Hlaw. rewrite Hnew.
    assert (count_of r = 1%nat) as Hone.
    { unfold count_of. by rewrite (proj2 (counts_as_completed_iff r)) by auto. }
    assert (count_of (with_feedback fb r) = 1%nat) as Hone'.
    { unfold count_of. by rewrite (proj2 (counts_as_completed_iff _)) by auto. }
    lia.
Qed.

End CompletedTasks.

(** The counter on the orchestrator of the scenario after processing. *)
Lemma completed_tasks_counts_success_and_feedback_witness :
  ∃ st, get_system_status drained_orchestrator = Ok st drained_orchestrator ∧
        completed_tasks st = length (completed_task_ids drained_orchestrator).
Proof.
  destruct (completed_tasks_counts_success_and_feedback drained_orchestrator
              (reachable_after _ _ (reachable_after _ _ (reachable_init _ _ _))))
    as (st & E & _ & Hcount & _).
  exists st. split; [exact E | exact Hcount].
Defined.

(** Claim C5, as stated, fails: the task of the scenario reaches
    ["partial_success"] for the first time when it is processed, and the
    counter stays at zero instead of going up by one. *)
Lemma completed_tasks_skips_partial_success :
  status <$> results queued_orchestrator !! "task_100_0" = Some "pending" ∧
  status <$> results drained_orchestrator !! "task_100_0" = Some "partial_success" ∧
  ∃ before after,
    completed_tasks <$> returned (get_system_status queued_orchestrator) = Some before ∧
    completed_tasks <$> returned (get_system_status drained_orchestrator) = Some after ∧
    after ≠ (before + 1)%nat.
Proof.
  split; [by vm_compute|]. split; [by vm_compute|].
  exists 0%nat, 0%nat. split; [by vm_compute|]. split; [by vm_compute|]. lia.
Qed.

(** ** Task ids and the life of a record *)

Section Lifecycle.

(** Claim C3 fails on the code: the first submission, at 100.2 s, and a
    submission at 100.7 s, after [process_tasks] has emptied the queue,
    return the same id. *)
Lemma submit_task_reissues_id :
  reachable drained_orchestrator ∧
  returned (submit_task (1002 # 10) (1002 # 10) 1%nat full_pipeline_request
              moonless_orchestrator)
    = Some "task_100_0" ∧
  returned (submit_task (1007 # 10) (1007 # 10) 2%nat code_generation_request
              drained_orchestrator)
    = Some "task_100_0".
Proof.
  split; [apply reachable_after, reachable_after, reachable_init|].
  split; by vm_compute.
Qed.

(** While the queue is not drained, the dictionaries waiting in it
    have ids of their own.  Two references of the queue carry the same
    id exactly when they are references to the same dictionary, which
    was then submitted again while it waited and holds the same at both
    places; the ids of distinct dictionaries are distinct. *)
Theorem queued_ids_distinct o :
  reachable o →
  (∀ i j dict dict' task task',
     task_queue o !! i = Some (dict, task) →
     task_queue o !! j = Some (dict', task') →
     (task_id task = task_id task' ↔ dict = dict') ∧
     (dict = dict' → task = task')) ∧
  (NoDup (task_queue o).*1 → NoDup (task_id <$> queued_tasks o)).
Proof.
  intros Hreach. pose proof (reachable_consistent o Hreach) as Hc.
  assert (Hentries : ∀ i j dict dict' task task',
            task_queue o !! i = Some (dict, task) →
            task_queue o !! j = Some (dict', task') →
            (task_id task = task_id task' ↔ dict = dict') ∧
            (dict = dict' → task = task')).
  { intros i j dict dict' task task' Hi Hj.
    assert (dict = dict' → task = task') as Hsame.
    { intros <-. apply (queued_shared o Hc dict); by eapply list_elem_of_lookup_2. }
    split; [|done]. split.
    - intros Hid.
      by pose proof (consistent_same_entry o i j _ _ Hc Hi Hj Hid) as [= -> _].
    - intros Hd. by rewrite (Hsame Hd). }
  split; [exact Hentries|].
  intros Hnd. apply NoDup_alt. intros i j id Hi Hj.
  unfold queued_tasks in Hi, Hj. rewrite !list_lookup_fmap in Hi, Hj.
  destruct (task_queue o !! i) as [[d t]|] eqn:Ei; [|done].
  destruct (task_queue o !! j) as [[d' t']|] eqn:Ej; [|done].
  simpl in Hi, Hj.
  destruct (Hentries i j d d' t t' Ei Ej) as [Hiff _].
  apply (NoDup_lookup _ i j d Hnd); rewrite list_lookup_fmap.
  - by rewrite Ei.
  - rewrite Ej. simpl. f_equal. symmetry. apply Hiff. congruence.
Qed.

(** No record ever has status ["error"]. *)
Lemma status_never_error o id r :
  reachable o → results o !! id = Some r → status r ≠ "error".
Proof.
  intros Hreach Hr Herr.
  pose proof (recorded_statuses o (reachable_consistent o Hreach) id r Hr) as Hin.
  rewrite Herr in Hin. unfold task_statuses in Hin.
  repeat (apply elem_of_cons in Hin as [Hin|Hin]; [discriminate Hin|]).
  by apply elem_of_nil in Hin.
Qed.

(** After [process_tasks] every task it found has status ["success"] or
    ["partial_success"]. *)
Lemma process_tasks_statuses clock o :
  reachable o →
  ∃ o', process_tasks clock o = Ok tt o' ∧
    ∀ task, task ∈ queued_tasks o →
      ∃ r', results o' !! task_id task = Some r' ∧
            (status r' = "success" ∨ status r' = "partial_success").
Proof.
  intros Hreach.
  destruct (process_tasks_Ok clock o (reachable_consistent o Hreach))
    as (o' & E & _ & _ & _ & Hmine).
  exists o'. split; [done|]. intros task Hin.
  destruct (Hmine task Hin) as (r & i & _ & _ & Hr').
  eexists. split; [done|]. apply processed_status.
Qed.


(** Claim C10 fails on the code where an id is issued twice: the
    processed task of the scenario has status ["partial_success"], and
    the submission at 100.7 s, which gets the same id, puts the record
    back to ["pending"]. *)
Lemma resubmission_resets_status :
  status <$> results drained_orchestrator !! "task_100_0" = Some "partial_success" ∧
  status <$>
    results (after (SubmitTask (1007 # 10) (1007 # 10) 2%nat code_generation_request)
               drained_orchestrator) !! "task_100_0" = Some "pending".
Proof. split; by vm_compute. Qed.

End Lifecycle.

(** ** The registry *)

Section Registry.

Lemma initialize_step_lookup (classes : gmap string (AssistantConfig → BaseAssistant.t))
    (acc : gmap string BaseAssistant.t) (k : string) (cfg : AssistantConfig) (name : string) :
  match classes !! k with
  | Some cls => <[k := cls cfg]> acc
  | None => acc
  end !! name =
  if decide (k = name)
  then match classes !! k with Some cls => Some (cls cfg) | None => acc !! name end
  else acc !! name.
Proof.
  case_decide as Hk; destruct (classes !! k) as [cls|]; try done.
  - subst. apply lookup_insert_eq.
  - by apply lookup_insert_ne.
Qed.

(** [initialize_assistants], started on an empty registry, registers
    under a name the worker its class builds from the entry of
    [ASSISTANTS] for that name, when the name has both a class and an
    entry, and nothing otherwise: a configured assistant without a
    class is left out, and so is a class without configuration. *)
Theorem initialize_assistants_lookup
    (classes : gmap string (AssistantConfig → BaseAssistant.t)) (name : string) :
  initialize_assistants classes ∅ !! name =
    match ASSISTANTS_lookup name with
    | Some cfg => (λ cls, cls cfg) <$> classes !! name
    | None => None
    end.
Proof.
  unfold initialize_assistants, ASSISTANTS. cbn [foldl fst snd].
  rewrite !initialize_step_lookup, lookup_empty.
  repeat case_decide; subst; try discriminate;
    try (by destruct (classes !! _)).
  unfold ASSISTANTS_lookup, ASSISTANTS. cbn [find fst].
  repeat match goal with
         | |- context [String.eqb ?a ?b] =>
             destruct (String.eqb_spec a b); [congruence|]
         end.
  done.
Qed.

Lemma route_feedback_methods items : ∀ o name a',
  assistants (final (route_feedback items o)) !! name = Some a' →
  ∃ a, assistants o !! name = Some a ∧
       BaseAssistant.process_task a' = BaseAssistant.process_task a ∧
       BaseAssistant.handle_feedback a' = BaseAssistant.handle_feedback a.
Proof.
  induction items as [|[n fb] items IH]; intros o name a'.
  - simpl. eauto.
  - rewrite route_feedback_cons.
    destruct (assistants o !! n) as [a|] eqn:Ha; [|apply IH].
    assert (∀ b, assistants
                   (set_assistants
                      (insert n (BaseAssistant.with_attrs a
                         (fst (BaseAssistant.handle_feedback a (BaseAssistant.attrs a) fb)))) o)
                   !! name = Some b →
                 ∃ a0, assistants o !! name = Some a0 ∧
                   BaseAssistant.process_task b = BaseAssistant.process_task a0 ∧
                   BaseAssistant.handle_feedback b = BaseAssistant.handle_feedback a0) as Hstep.
    { intros b. simpl. destruct (decide (n = name)) as [->|Hne].
      - rewrite lookup_insert_eq. intros [= <-]. by exists a.
      - rewrite lookup_insert_ne by done. intros Hb. by exists b. }
    cbv zeta.
    destruct (snd (BaseAssistant.handle_feedback a (BaseAssistant.attrs a) fb)).
    + apply Hstep.
    + intros Ha'. apply IH in Ha' as (b & Hb & Hp & Hf).
      apply Hstep in Hb as (a0 & Ha0 & Hp0 & Hf0).
      exists a0. split; [done|]. split; congruence.
Qed.

Lemma handle_feedback_assistants id fb o :
  assistants (final (handle_feedback id fb o)) = assistants o ∨
  ∃ items, assistants (final (handle_feedback id fb o)) =
             assistants (final (route_feedback items o)).
Proof.
  destruct (results o !! id) as [r|] eqn:Hr.
  - rewrite (handle_feedback_known _ _ _ r) by done.
    destruct (py_items (get_assistant_feedback fb)) as [items|e]; [|by left].
    right. exists items. by destruct (route_feedback _ o).
  - left. by rewrite handle_feedback_unknown.
Qed.

(** The orchestrator registers exactly Earth, Moon and Sun; Mercury,
    Venus, Mars and Jupiter are configured in config.py and never run.
    No call changes the registered names, nor the methods of a worker:
    [handle_feedback] changes attributes, and no other call changes a
    worker at all. *)
Theorem registry_is_fixed c o :
  reachable o →
  dom (assistants o) = ({["Earth"; "Moon"; "Sun"]} : gset string) ∧
  dom (assistants (after c o)) = dom (assistants o) ∧
  (∀ name a', assistants (after c o) !! name = Some a' →
     ∃ a, assistants o !! name = Some a ∧
          BaseAssistant.process_task a' = BaseAssistant.process_task a ∧
          BaseAssistant.handle_feedback a' = BaseAssistant.handle_feedback a) ∧
  ((∀ id fb, c ≠ HandleFeedback id fb) → assistants (after c o) = assistants o).
Proof.
  intros Hreach. pose proof (reachable_consistent o Hreach) as Hc.
  pose proof (reachable_consistent _ (reachable_after c o Hreach)) as Hc'.
  split; [apply (registry_names o Hc)|].
  split; [by rewrite (registry_names _ Hc'), (registry_names o Hc)|].
  assert (Hsame : (∀ id fb, c ≠ HandleFeedback id fb) → assistants (after c o) = assistants o).
  { intros Hnot. destruct c as [a b d t|clock|id|id fb|name|]; simpl.
    - apply submit_task_assistants.
    - by destruct (process_tasks_Ok clock o Hc) as (o' & -> & Ha & _).
    - done.
    - by destruct (Hnot id fb).
    - by rewrite get_assistant_status_final.
    - by rewrite get_system_status_final. }
  split; [|done].
  intros name a' Ha'.
  assert ((∃ id fb, c = HandleFeedback id fb) ∨ ∀ id fb, c ≠ HandleFeedback id fb)
    as [(id & fb & ->)|Hnot] by (destruct c; eauto).
  - simpl in Ha'.
    destruct (handle_feedback_assistants id fb o) as [E|[items E]]; rewrite E in Ha'.
    + by exists a'.
    + by apply route_feedback_methods in Ha'.
  - rewrite Hsame in Ha' by done. by exists a'.
Qed.

End Registry.

(** ** Status of the workers and of the system *)

Section SystemStatus.

Lemma registered_names o name :
  consistent o →
  is_Some (assistants o !! name) ↔ name ∈ ["Earth"; "Moon"; "Sun"].
Proof.
  intros Hc. rewrite <- elem_of_dom, (registry_names o Hc).
  rewrite !elem_of_union, !elem_of_singleton, !elem_of_cons, elem_of_nil. tauto.
Qed.

Lemma registered_configured name :
  name ∈ ["Earth"; "Moon"; "Sun"] → is_Some (ASSISTANTS_lookup name).
Proof.
  intros Hin. repeat (apply elem_of_cons in Hin as [->|Hin]; [by eexists|]).
  by apply elem_of_nil in Hin.
Qed.

(** On a reachable orchestrator [get_assistant_status] never raises and
    changes nothing.  For Earth, Moon and Sun it answers ["active"]
    with the capabilities config.py lists for that name and, as load,
    the number of queued tasks assigned to it; the lookup in
    [ASSISTANTS] cannot miss.  For every other name it answers with the
    not-found dictionary. *)
Theorem get_assistant_status_reachable name o :
  reachable o →
  ∃ reply, get_assistant_status name o = Ok reply o ∧
    if decide (name ∈ ["Earth"; "Moon"; "Sun"])
    then ∃ cfg, ASSISTANTS_lookup name = Some cfg ∧
           reply = AssistantActive "active" (capabilities cfg) (current_load_of name o)
    else reply = AssistantNotFound "not_found" ("Assistant " +:+ name +:+ " not found").
Proof.
  intros Hreach. pose proof (reachable_consistent o Hreach) as Hc.
  unfold get_assistant_status.
  case_decide as Hin.
  - destruct (proj2 (registered_names o name Hc) Hin) as [a ->].
    destruct (registered_configured name Hin) as [cfg Hcfg]. rewrite Hcfg.
    eexists. split; [done|]. by exists cfg.
  - destruct (assistants o !! name) as [a|] eqn:Ha.
    + destruct Hin. apply (registered_names o name Hc). eauto.
    + by eexists.
Qed.

Lemma assistant_status_of_lookup names o :
  (∀ name, name ∈ names → is_Some (ASSISTANTS_lookup name)) →
  ∃ m, assistant_status_of names o = Ok m o ∧
    ∀ name, m !! name =
            if decide (name ∈ names) then returned (get_assistant_status name o) else None.
Proof.
  induction names as [|n names IH]; intros Hcfg.
  - exists ∅. split; [done|]. intros name. rewrite lookup_empty.
    case_decide as Hin; [by apply elem_of_nil in Hin|done].
  - destruct IH as (m & Hm & Hlook); [by intros; apply Hcfg; right|].
    destruct (Hcfg n) as [cfg Hn]; [by left|].
    assert (∃ st, get_assistant_status n o = Ok st o) as [st Hst].
    { unfold get_assistant_status. rewrite Hn. destruct (assistants o !! n); by eexists. }
    exists (<[n := st]> m). split.
    + cbn [assistant_status_of]. unfold bind. by rewrite Hst, Hm.
    + intros name. destruct (decide (n = name)) as [->|Hne].
      * rewrite lookup_insert_eq, decide_True by (by left). by rewrite Hst.
      * rewrite lookup_insert_ne, Hlook by done.
        case_decide as Hin.
        -- by rewrite decide_True by (by right).
        -- rewrite decide_False; [done|].
           intros Hin'. apply elem_of_cons in Hin' as [?|?]; congruence.
Qed.

(** On a reachable orchestrator [get_system_status] never raises and
    changes nothing; it reports three active assistants, the length of
    the queue as pending tasks, and under [assistant_status] exactly
    the answers of [get_assistant_status] for Earth, Moon and Sun. *)
Theorem get_system_status_reachable o :
  reachable o →
  ∃ st, get_system_status o = Ok st o ∧
    active_assistants st = 3%nat ∧
    pending_tasks st = length (task_queue o) ∧
    ∀ name, assistant_status st !! name =
            if decide (name ∈ ["Earth"; "Moon"; "Sun"])
            then returned (get_assistant_status name o)
            else None.
Proof.
  intros Hreach. pose proof (reachable_consistent o Hreach) as Hc.
  assert (Hkeys : ∀ name, name ∈ (map_to_list (assistants o)).*1 ↔
                          name ∈ ["Earth"; "Moon"; "Sun"]).
  { intros name. rewrite <- (registered_names o name Hc).
    rewrite list_elem_of_fmap. split.
    - intros ([n a] & -> & Hin). apply elem_of_map_to_list in Hin. simpl. eauto.
    - intros [a Ha]. exists (name, a). split; [done|]. by apply elem_of_map_to_list. }
  destruct (assistant_status_of_lookup ((map_to_list (assistants o)).*1) o)
    as (m & Hm & Hlook).
  { intros name Hin. apply registered_configured. by apply Hkeys. }
  unfold get_system_status, bind. rewrite Hm.
  eexists. split; [done|]. simpl.
  split; [by apply consistent_registry_size|]. split; [done|].
  intros name. rewrite Hlook.
  destruct (decide (name ∈ (map_to_list (assistants o)).*1)) as [Hin|Hout];
    [rewrite decide_True by (by apply Hkeys)|rewrite decide_False; [done|]]; try done.
  intros Hin. by apply Hout, Hkeys.
Qed.

(** Writing to a dictionary what it is assigned already leaves every
    load as it is. *)
Lemma current_load_write name dict task queue :
  (∀ t, (dict, t) ∈ queue → assigned_assistants t = assigned_assistants task) →
  length (filter (λ entry, name ∈ assigned_assistants (snd entry))
            (write_dict dict task queue)) =
  length (filter (λ entry, name ∈ assigned_assistants (snd entry)) queue).
Proof.
  induction queue as [|[d t] queue IH]; intros Hsame; [done|].
  unfold write_dict in *. rewrite fmap_cons, !filter_cons. cbn [fst].
  assert (Htail : ∀ t0, (dict, t0) ∈ queue →
                        assigned_assistants t0 = assigned_assistants task).
  { intros t0 Hin. apply Hsame. by right. }
  destruct (decide (d = dict)) as [->|Hne]; cbn [snd].
  - rewrite <- (Hsame t) by (by left).
    case_decide; simpl; by rewrite IH.
  - case_decide; simpl; by rewrite IH.
Qed.

(** The load of a worker follows the queue: a submission that returns
    adds one to the load of each worker the task is routed to and
    leaves the other loads alone, a submission that raises leaves every
    load alone, and [process_tasks] brings every load to zero. *)
Theorem current_load_accounting name status caps load now_id now_ts dict task clock o :
  reachable o →
  get_assistant_status name o = Ok (AssistantActive status caps load) o →
  (∀ names,
     _determine_required_assistants (held dict task (task_queue o)) = Returns names →
     returned (get_assistant_status name (after (SubmitTask now_id now_ts dict task) o)) =
       Some (AssistantActive status caps
               (load + if decide (name ∈ names) then 1 else 0))) ∧
  (∀ e,
     _determine_required_assistants (held dict task (task_queue o)) = Raises e →
     returned (get_assistant_status name (after (SubmitTask now_id now_ts dict task) o)) =
       Some (AssistantActive status caps load)) ∧
  returned (get_assistant_status name (after (ProcessTasks clock) o)) =
    Some (AssistantActive status caps 0).
Proof.
  intros Hreach Hst. pose proof (reachable_consistent o Hreach) as Hc.
  pose proof Hst as Hst0.
  unfold get_assistant_status in Hst.
  destruct (assistants o !! name) as [a|] eqn:Ha; [|done].
  destruct (ASSISTANTS_lookup name) as [cfg|] eqn:Hcfg; [|done].
  injection Hst as <- <- <-. split; [|split].
  - intros names Hroute. simpl.
    rewrite (submit_task_Returns _ _ _ _ _ names) by done. cbv zeta.
    unfold get_assistant_status. simpl. rewrite Ha, Hcfg. simpl.
    do 2 f_equal. rewrite filter_app, length_app. f_equal.
    + apply current_load_write. intros t Hin. simpl.
      assert (t = held dict task (task_queue o)) as ->.
      { destruct (held_cases dict task (task_queue o)) as [[Hout _]|Hheld].
        - destruct Hout. apply list_elem_of_fmap. by exists (dict, t).
        - by apply (queued_shared o Hc dict). }
      pose proof (queued_routed o Hc (held dict task (task_queue o))) as Hrouted.
      rewrite Hroute in Hrouted. symmetry.
      assert (Returns names = Returns (assigned_assistants (held dict task (task_queue o))))
        as [= ->]; [|done].
      apply Hrouted. apply list_elem_of_fmap. by eexists (_, _).
    + rewrite filter_cons, filter_nil. simpl. by repeat case_decide.
  - intros e Hroute. simpl.
    rewrite (proj2 (submit_task_Raises_consistent _ _ _ _ _ e Hc Hroute)).
    simpl. by rewrite Hst0.
  - destruct (process_tasks_Ok clock o Hc) as (o' & E & Ha' & Hq & _).
    simpl. rewrite E. simpl. unfold get_assistant_status.
    by rewrite Ha', Ha, Hcfg, Hq.
Qed.

End SystemStatus.

(** ** When two ids coincide *)

Section Collisions.

Lemma fields_determined a a' b b' :
  unseparated b → unseparated b' →
  a +:+ String "_" b = a' +:+ String "_" b' → a = a' ∧ b = b'.
Proof.
  intros Hb Hb'. revert a'.
  induction a as [|c a IH]; intros [|c' a']; simpl; intros [=]; subst.
  - done.
  - by edestruct Hb.
  - by edestruct Hb'.
  - destruct (IH a') as [-> ->]; done.
Qed.

(** The id [submit_task] returns records the second of the clock and
    the length of the queue, and nothing else: two submissions that
    return, on any two orchestrators, return the same id exactly when
    they are made in the same second with equally long queues. *)
Theorem submit_task_ids_coincide now_id now_ts dict task o now_id' now_ts' dict' task' o'
    id id' :
  returned (submit_task now_id now_ts dict task o) = Some id →
  returned (submit_task now_id' now_ts' dict' task' o') = Some id' →
  id = id' ↔
  py_int now_id = py_int now_id' ∧ length (task_queue o) = length (task_queue o').
Proof.
  intros Hid Hid'.
  apply submit_task_returned in Hid as [-> _].
  apply submit_task_returned in Hid' as [-> _]. split.
  - unfold make_task_id. simpl. intros [= E].
    apply fields_determined in E as [Ez En]; try apply py_str_nat_unseparated.
    apply py_str_inj in Ez, En. split; [done|lia].
  - unfold make_task_id. by intros [-> ->].
Qed.

End Collisions.

(** ** The tasks that wait *)

Section Waiting.

Lemma init_waiting E M S : waiting (__init__ E M S).
Proof.
  split; simpl.
  - intros task Hin. by apply elem_of_nil in Hin.
  - intros task r Hin. by apply elem_of_nil in Hin.
Qed.

Lemma after_waiting c o : consistent o → waiting o → waiting (after c o).
Proof.
  intros Hc [_ Hfresh].
  split; [apply (queued_routed _ (after_consistent c o Hc))|].
  destruct c as [now_id now_ts dict task|clock|id|id fb|name|]; simpl.
  - destruct (_determine_required_assistants (held dict task (task_queue o)))
      as [names|e] eqn:Hroute.
    2: { by rewrite (proj2 (submit_task_Raises_consistent _ _ _ _ _ e Hc Hroute)). }
    rewrite (submit_task_Returns _ _ _ _ _ names) by done. cbv zeta. simpl.
    intros t r Hin Hr. apply lookup_insert_Some in Hr as [[_ <-]|[Hne Hr]]; [done|].
    apply list_elem_of_fmap in Hin as ([d t0] & -> & Hin).
    apply elem_of_submitted in Hin as [[= -> ->]|[_ Hin]]; [done|].
    apply (Hfresh t0); [|done]. apply list_elem_of_fmap. by exists (d, t0).
  - destruct (process_tasks_Ok clock o Hc) as (o' & -> & _ & Hq & _).
    simpl. unfold queued_tasks. rewrite Hq.
    intros task r Hin. by apply elem_of_nil in Hin.
  - done.
  - destruct (handle_feedback_final id fb o _ eq_refl) as (Hq & _ & Hres).
    unfold queued_tasks. rewrite Hq.
    intros t r' Hin Hr'.
    destruct Hres as [Heq | (r & Hr & Heq)]; rewrite Heq in Hr'; [by eapply Hfresh|].
    apply lookup_insert_Some in Hr' as [[Hid <-]|[_ Hr']]; [|by eapply Hfresh].
    subst id. simpl. by eapply Hfresh.
  - by rewrite get_assistant_status_final.
  - by rewrite get_system_status_final.
Qed.

Lemma reachable_waiting o : reachable o → waiting o.
Proof.
  induction 1 as [E M S|c o Hreach IH].
  - apply init_waiting.
  - apply after_waiting; [by apply reachable_consistent|done].
Qed.

(** Every queued task of a reachable orchestrator is assigned at least
    one worker, all its workers are registered, and so the dispatch of
    a submitted task never takes the branch that raises
    ["Assistant ... not found"]: it calls the worker's [process_task]. *)
Theorem queued_tasks_have_registered_workers task o :
  reachable o →
  task ∈ queued_tasks o →
  assigned_assistants task ≠ [] ∧
  ∀ name, name ∈ assigned_assistants task →
    ∃ a, assistants o !! name = Some a ∧
         _process_task_with_assistant task name o =
           BaseAssistant.process_task a (BaseAssistant.attrs a) task.
Proof.
  intros Hreach Hin.
  pose proof (reachable_consistent o Hreach) as Hc.
  pose proof (queued_routed o Hc task Hin) as Hroute.
  apply determine_required_assistants_names in Hroute as [Hsome Hnames].
  split; [done|].
  intros name Hname. apply Hnames in Hname.
  apply (registered_names o name Hc) in Hname as [a Ha].
  exists a. split; [done|]. unfold _process_task_with_assistant. by rewrite Ha.
Qed.

End Waiting.

(** ** From submission to the final result *)

Section RoundTrip.

(** The record [process_tasks] leaves for a task that waited. *)
Lemma process_tasks_waiting clock o :
  reachable o →
  ∃ o', process_tasks clock o = Ok tt o' ∧ task_queue o' = [] ∧
    ∀ task, task ∈ queued_tasks o →
      ∃ r i, results o !! task_id task = Some r ∧
           assistant_results r = ∅ ∧ final_result r = None ∧
           _determine_required_assistants task = Returns (assigned_assistants task) ∧
           results o' !! task_id task = Some (processed (clock i) task o r).
Proof.
  intros Hreach.
  pose proof (reachable_consistent o Hreach) as Hc.
  pose proof (reachable_waiting o Hreach) as [Hrouted Hfresh].
  destruct (process_tasks_Ok clock o Hc) as (o' & E & _ & Hq & _ & Hmine).
  exists o'. split; [done|]. split; [done|].
  intros task Hin. destruct (Hmine task Hin) as (r & i & _ & Hr & Hr').
  destruct (Hfresh task r Hin Hr) as [Har Hfin].
  exists r, i. repeat split; auto.
Qed.

(** After [process_tasks] the final result of every task that waited
    has one component for each worker its type is routed to and no
    other, and carries [generated_code], [syntax_validation] and
    [performance_analysis] exactly when Earth, Moon and Sun are among
    them. *)
Theorem components_follow_routing clock o :
  reachable o →
  ∃ o', process_tasks clock o = Ok tt o' ∧
    ∀ task, task ∈ queued_tasks o →
      ∃ names r c,
        _determine_required_assistants task = Returns names ∧
        results o' !! task_id task = Some r ∧ final_result r = Some c ∧
        components c = assistant_results r ∧
        (∀ name, is_Some (components c !! name) ↔ name ∈ names) ∧
        (is_Some (generated_code c) ↔ "Earth" ∈ names) ∧
        (is_Some (syntax_validation c) ↔ "Moon" ∈ names) ∧
        (is_Some (performance_analysis c) ↔ "Sun" ∈ names).
Proof.
  intros Hreach.
  destruct (process_tasks_waiting clock o Hreach) as (o' & E & _ & Hrec).
  exists o'. split; [done|]. intros task Hin.
  destruct (Hrec task Hin) as (r & i & _ & Har & _ & Hroute & Hr').
  eexists _, _, _. split; [exact Hroute|].
  split; [exact Hr'|]. split; [reflexivity|]. split; [reflexivity|].
  assert (Hkeys : ∀ name,
            is_Some (report_all task o (assigned_assistants task) (assistant_results r) !! name)
            ↔ name ∈ assigned_assistants task).
  { intros name.
    destruct (decide (name ∈ assigned_assistants task)) as [Hyes|Hno].
    - rewrite (report_all_elem _ _ _ _ _ Hyes). split; eauto.
    - rewrite (report_all_not_elem _ _ _ _ _ Hno), Har, lookup_empty.
      split; [by intros [? ?]|done]. }
  simpl. rewrite !fmap_is_Some. auto.
Qed.

(** Submitting a task, processing the queue and asking for the status
    of the returned id, as the [__main__] block of orchestrator.py and
    [main] of main.py do, yields the record of that task, never the
    not-found reply: its status is ["success"] or ["partial_success"],
    its final result is set with the same status, it has no feedback,
    it holds what each routed worker reported, and the queue is empty.
    This is so whenever the routing of the task returns, and then
    [submit_task] returns. *)
Theorem submit_process_status now_id now_ts dict task names clock o :
  reachable o →
  _determine_required_assistants (held dict task (task_queue o)) = Returns names →
  ∃ id o1 o2 r c,
    submit_task now_id now_ts dict task o = Ok id o1 ∧
    process_tasks clock o1 = Ok tt o2 ∧
    get_task_status id o2 = Ok (TaskRecord r) o2 ∧
    task_queue o2 = [] ∧
    (status r = "success" ∨ status r = "partial_success") ∧
    final_result r = Some c ∧ combined_status c = status r ∧
    feedback r = None ∧
    ∀ name, assistant_results r !! name =
      if decide (name ∈ names)
      then Some (reported
                   (assign_task (stamp_task (held dict task (task_queue o)) id now_ts) names)
                   name o)
      else None.
Proof.
  intros Hreach Hroute.
  pose proof (reachable_after (SubmitTask now_id now_ts dict task) o Hreach) as Hreach1.
  simpl in Hreach1.
  rewrite (submit_task_Returns _ _ _ _ _ names) in Hreach1 |- * by done.
  cbv zeta in Hreach1 |- *. simpl in Hreach1.
  set (id := make_task_id now_id (length (task_queue o))) in *.
  set (task' := assign_task (stamp_task (held dict task (task_queue o)) id now_ts) names)
    in *.
  set (o1 := set_results (insert id pending_record)
               (set_task_queue (write_dict dict task' (task_queue o) ++ [(dict, task')]) o))
    in *.
  destruct (process_tasks_waiting clock o1 Hreach1) as (o2 & E & Hq & Hrec).
  destruct (Hrec task') as (r & i & Hr & _ & _ & _ & Hr').
  { unfold queued_tasks. simpl. rewrite fmap_app. apply elem_of_app. right. by left. }
  simpl in Hr. rewrite lookup_insert_eq in Hr. injection Hr as <-.
  simpl in Hr'.
  eexists id, o1, o2, _, _. split; [done|]. split; [done|]. split.
  { unfold get_task_status. by rewrite Hr'. }
  split; [done|]. split; [apply processed_status|].
  split; [reflexivity|]. split; [reflexivity|]. split; [reflexivity|].
  intros name. simpl.
  case_decide as Hin.
  - by rewrite (report_all_elem _ _ _ _ _ Hin).
  - by rewrite (report_all_not_elem _ _ _ _ _ Hin).
Qed.

(** [process_tasks] on an orchestrator whose queue it has just emptied
    returns at once and changes nothing: a second call is a no-op. *)
Theorem process_tasks_twice clock clock' o :
  reachable o →
  ∃ o', process_tasks clock o = Ok tt o' ∧ process_tasks clock' o' = Ok tt o'.
Proof.
  intros Hreach. pose proof (reachable_consistent o Hreach) as Hc.
  destruct (process_tasks_Ok clock o Hc) as (o' & E & Ha & Hq & _).
  exists o'. split; [done|].
  unfold process_tasks. rewrite Ha, Hq.
  by rewrite decide_False by (rewrite (consistent_registry_size o Hc); lia).
Qed.

(** No call removes a record: an id that [self.results] holds stays in
    it through every later call. *)
Theorem records_are_kept c o :
  reachable o → dom (results o) ⊆ dom (results (after c o)).
Proof.
  intros Hreach. pose proof (reachable_consistent o Hreach) as Hc.
  intros id Hid. apply elem_of_dom in Hid as [r Hr]. apply elem_of_dom.
  destruct c as [now_id now_ts dict task|clock|id'|id' fb|name|]; simpl.
  - destruct (submit_task_results now_id now_ts dict task o) as [-> | ->]; [eauto|].
    apply lookup_insert_is_Some'. right. eauto.
  - destruct (process_tasks_Ok clock o Hc) as (o' & -> & _ & _ & Hother & Hmine). simpl.
    destruct (decide (id ∈ task_id <$> queued_tasks o)) as [Hin|Hout].
    + apply list_elem_of_fmap in Hin as (t & -> & Hin).
      destruct (Hmine t Hin) as (r0 & i & _ & _ & ->). eauto.
    + rewrite Hother by done. eauto.
  - eauto.
  - destruct (handle_feedback_final id' fb o _ eq_refl) as (_ & _ & [->|(r0 & _ & ->)]).
    + eauto.
    + apply lookup_insert_is_Some'. right. eauto.
  - rewrite get_assistant_status_final. eauto.
  - rewrite get_system_status_final. eauto.
Qed.

End RoundTrip.

(** ** Feedback that fails, feedback that comes early *)

Section FeedbackEdges.

(** [handle_feedback] raises only for a recorded id, and then stores
    nothing: the records and the queue are as before the call, so the
    feedback is lost and the status is not changed.  What it raises is
    the [AttributeError] of [.items()] when the value under
    [assistant_feedback] is not a dictionary, before any worker is
    called and with the orchestrator left as it was; and otherwise what
    the [handle_feedback] of a registered worker raised on a
    sub-payload filed under its name, the workers called before it
    having taken their payloads. *)
Theorem handle_feedback_raise_stores_nothing id fb o e o' :
  handle_feedback id fb o = Err e o' →
  is_Some (results o !! id) ∧
  results o' = results o ∧ task_queue o' = task_queue o ∧
  dom (assistants o') = dom (assistants o) ∧
  match py_items (get_assistant_feedback fb) with
  | Raises e' => e = e' ∧ o' = o
  | Returns items =>
      route_feedback items o = Err e o' ∧
      ∃ name payload a attrs, (name, payload) ∈ items ∧
        is_Some (assistants o !! name) ∧
        assistants o' !! name = Some a ∧
        snd (BaseAssistant.handle_feedback a attrs payload) = Some e
  end.
Proof.
  intros Herr.
  destruct (results o !! id) as [r|] eqn:Hr.
  - rewrite (handle_feedback_known _ _ _ r) in Herr by done.
    destruct (py_items (get_assistant_feedback fb)) as [items|e'].
    + pose proof (route_feedback_final items o) as (Hr1 & Hq1 & Hd1).
      destruct (route_feedback items o) as [[] o1|e1 o1] eqn:Hroute; [done|].
      injection Herr as <- <-. simpl in *.
      repeat split; eauto. by eapply route_feedback_Err.
    + injection Herr as <- <-. repeat split; eauto.
  - by rewrite handle_feedback_unknown in Herr.
Qed.

(** Feedback given while the task still waits is kept, but its status
    is not: [process_tasks] afterwards overwrites
    ["completed_with_feedback"] with ["success"] or ["partial_success"]
    and leaves the stored feedback in the record. *)
Theorem early_feedback_is_overwritten task fb clock o o1 :
  reachable o →
  task ∈ queued_tasks o →
  handle_feedback (task_id task) fb o = Ok tt o1 →
  ∃ r1 o2 r2,
    results o1 !! task_id task = Some r1 ∧
    status r1 = "completed_with_feedback" ∧
    process_tasks clock o1 = Ok tt o2 ∧
    results o2 !! task_id task = Some r2 ∧
    (status r2 = "success" ∨ status r2 = "partial_success") ∧
    feedback r2 = Some fb.
Proof.
  intros Hreach Hin Hfb.
  pose proof (reachable_consistent o Hreach) as Hc.
  destruct (queued_recorded o Hc task Hin) as [r Hr].
  pose proof (reachable_after (HandleFeedback (task_id task) fb) o Hreach) as Hreach1.
  simpl in Hreach1. rewrite Hfb in Hreach1. simpl in Hreach1.
  destruct (handle_feedback_final (task_id task) fb o o1) as (Hq & _ & Hres);
    [by rewrite Hfb|].
  assert (results o1 = <[task_id task := with_feedback fb r]> (results o)) as Hres1.
  { rewrite (handle_feedback_known _ _ _ r) in Hfb by done.
    destruct (py_items (get_assistant_feedback fb)) as [items|]; [|done].
    pose proof (route_feedback_final items o) as (Hr1 & _).
    destruct (route_feedback items o) as [[] o0|]; [|done].
    injection Hfb as <-. simpl in *. by rewrite Hr1. }
  destruct (process_tasks_Ok clock o1 (reachable_consistent o1 Hreach1))
    as (o2 & E & _ & _ & _ & Hmine).
  unfold queued_tasks in Hin. rewrite <- Hq in Hin.
  destruct (Hmine task Hin) as (r1 & i & _ & Hr1 & Hr2).
  rewrite Hres1, lookup_insert_eq in Hr1. injection Hr1 as <-.
  eexists _, o2, _. split; [by rewrite Hres1, lookup_insert_eq|].
  split; [done|]. split; [done|]. split; [exact Hr2|].
  split; [apply processed_status|done].
Qed.

End FeedbackEdges.

(** ** The monitoring loop of the examples *)

Section Monitor.

Lemma system_get_task_status id o :
  AIMetaverseSystem.get_task_status id o = get_task_status id o.
Proof. reflexivity. Qed.

Lemma system_submit_task now_id now_ts dict task o :
  AIMetaverseSystem.submit_task now_id now_ts dict task o =
  submit_task now_id now_ts dict task o.
Proof.
  unfold AIMetaverseSystem.submit_task, try_except, bind, ret, raise.
  by destruct (submit_task now_id now_ts dict task o).
Qed.

Lemma monitor_step fuel id o reply :
  get_task_status id o = Ok reply o →
  monitor (S fuel) id o =
    if bool_decide (reply_status reply ∈ monitor_exit)
    then Ok (Some reply) o else monitor fuel id o.
Proof.
  intros Hreply. cbn [monitor]. unfold bind.
  rewrite system_get_task_status, Hreply. cbn beta iota.
  by destruct (bool_decide _).
Qed.

Lemma monitor_polls_on id o reply :
  get_task_status id o = Ok reply o →
  reply_status reply ∉ monitor_exit →
  ∀ fuel, monitor fuel id o = Ok None o.
Proof.
  intros Hreply Hout. induction fuel as [|fuel IH]; [done|].
  by rewrite (monitor_step _ _ _ reply), bool_decide_eq_false_2.
Qed.

Lemma not_monitor_exit (s : string) :
  s ∈ ["pending"; "partial_success"; "not_found"] → s ∉ monitor_exit.
Proof.
  intros Hin Hexit. unfold monitor_exit in Hexit.
  repeat (apply elem_of_cons in Hin as [Hin|Hin];
          [rewrite Hin in Hexit;
           repeat (apply elem_of_cons in Hexit as [Hexit|Hexit]; [discriminate Hexit|]);
           by apply elem_of_nil in Hexit|]).
  by apply elem_of_nil in Hin.
Qed.

(** The monitoring loop of [run_single_task] either ends at its first
    poll or never: with nothing else running, every poll sees the same
    reply.  It ends, returning the reply, exactly when the status of
    the id is ["success"], ["error"] or ["completed_with_feedback"];
    on every other status, ["pending"], ["partial_success"] and
    ["not_found"] among them, it polls for ever.  It changes nothing. *)
Theorem monitor_ends_at_once_or_never id o :
  ∃ reply, get_task_status id o = Ok reply o ∧
    (reply_status reply ∈ ["success"; "error"; "completed_with_feedback"] →
     ∀ fuel, monitor (S fuel) id o = Ok (Some reply) o) ∧
    (reply_status reply ∉ ["success"; "error"; "completed_with_feedback"] →
     ∀ fuel, monitor fuel id o = Ok None o) ∧
    (reply_status reply ∈ ["pending"; "partial_success"; "not_found"] →
     ∀ fuel, monitor fuel id o = Ok None o).
Proof.
  eexists. split; [reflexivity|].
  set (reply := default _ _).
  assert (get_task_status id o = Ok reply o) as Hreply by reflexivity.
  split; [|split].
  - intros Hin fuel. by rewrite (monitor_step _ _ _ reply), bool_decide_eq_true_2.
  - by apply monitor_polls_on.
  - intros Hin. by apply (monitor_polls_on id o reply), not_monitor_exit.
Qed.

(** [run_single_task] does not come back from the poll of a task it
    has just submitted: whenever the routing of the task returns,
    [submit_task] returns, the record is ["pending"], nothing in the
    function or in [submit_task] processes the queue, and so the loop
    runs for ever, however long it is given. *)
Theorem submit_and_monitor_never_returns fuel now_id now_ts dict task names o :
  _determine_required_assistants (held dict task (task_queue o)) = Returns names →
  ∃ id o', submit_task now_id now_ts dict task o = Ok id o' ∧
    submit_and_monitor fuel now_id now_ts dict task o = Ok None o'.
Proof.
  intros Hroute. eexists _, _. split; [by apply submit_task_Returns|].
  unfold submit_and_monitor, bind.
  rewrite system_submit_task, (submit_task_Returns _ _ _ _ _ names) by done. cbv zeta.
  eapply monitor_polls_on; [reflexivity|].
  apply not_monitor_exit. simpl. rewrite lookup_insert_eq. simpl. repeat constructor.
Qed.

End Monitor.

(** ** The properties above on the scenarios *)

(** Feedback to the queued orchestrator leaves the three names. *)
Lemma registry_is_fixed_witness :
  dom (assistants (after (HandleFeedback "task_100_0" mixed_feedback) queued_orchestrator))
  = ({["Earth"; "Moon"; "Sun"]} : gset string).
Proof.
  destruct (registry_is_fixed (HandleFeedback "task_100_0" mixed_feedback)
              queued_orchestrator (reachable_after _ _ (reachable_init _ _ _)))
    as (Hnames & Hsame & _).
  rewrite Hsame. exact Hnames.
Defined.

Lemma get_assistant_status_reachable_witness :
  ∃ reply, get_assistant_status "Moon" queued_orchestrator = Ok reply queued_orchestrator.
Proof.
  destruct (get_assistant_status_reachable "Moon" queued_orchestrator
              (reachable_after _ _ (reachable_init _ _ _))) as (reply & E & _).
  exists reply. exact E.
Defined.

Lemma get_system_status_reachable_witness :
  ∃ st, get_system_status queued_orchestrator = Ok st queued_orchestrator ∧
        active_assistants st = 3%nat ∧ pending_tasks st = 1%nat.
Proof.
  destruct (get_system_status_reachable queued_orchestrator
              (reachable_after _ _ (reachable_init _ _ _))) as (st & E & Ha & Hp & _).
  exists st. split; [exact E|]. split; [exact Ha|]. rewrite Hp. reflexivity.
Defined.

(** Moon idles on the fresh orchestrator, has one task once the
    full-pipeline task is submitted, two when the same dictionary is
    submitted again while it waits, and none after processing. *)
Lemma current_load_accounting_witness :
  returned (get_assistant_status "Moon" queued_orchestrator) =
    Some (AssistantActive "active" ["error_detection"; "code_correction"]
            (0 + if decide ("Moon" ∈ ["Earth"; "Moon"; "Sun"]) then 1 else 0)) ∧
  returned (get_assistant_status "Moon"
              (after (SubmitTask (1004 # 10) (1004 # 10) 1%nat full_pipeline_request)
                 queued_orchestrator)) =
    Some (AssistantActive "active" ["error_detection"; "code_correction"]
            (1 + if decide ("Moon" ∈ ["Earth"; "Moon"; "Sun"]) then 1 else 0)) ∧
  returned (get_assistant_status "Moon" (after (ProcessTasks half_past) moonless_orchestrator)) =
    Some (AssistantActive "active" ["error_detection"; "code_correction"] 0).
Proof.
  destruct (current_load_accounting "Moon" "active" ["error_detection"; "code_correction"] 0
              (1002 # 10) (1002 # 10) 1%nat full_pipeline_request half_past
              moonless_orchestrator (reachable_init _ _ _)) as (Hsubmit & _ & Hprocess).
  { vm_compute. reflexivity. }
  destruct (current_load_accounting "Moon" "active" ["error_detection"; "code_correction"] 1
              (1004 # 10) (1004 # 10) 1%nat full_pipeline_request half_past
              queued_orchestrator (reachable_after _ _ (reachable_init _ _ _)))
    as (Hagain & _ & _).
  { vm_compute. reflexivity. }
  split; [|split; [|exact Hprocess]].
  - apply (Hsubmit ["Earth"; "Moon"; "Sun"]). vm_compute. reflexivity.
  - apply (Hagain ["Earth"; "Moon"; "Sun"]). vm_compute. reflexivity.
Defined.

Lemma queued_tasks_have_registered_workers_witness :
  assigned_assistants queued_request ≠ [].
Proof.
  apply (queued_tasks_have_registered_workers queued_request queued_orchestrator
           (reachable_after _ _ (reachable_init _ _ _))).
  vm_compute. constructor.
Defined.

Lemma components_follow_routing_witness :
  ∃ o', process_tasks half_past queued_orchestrator = Ok tt o'.
Proof.
  destruct (components_follow_routing half_past queued_orchestrator
              (reachable_after _ _ (reachable_init _ _ _))) as (o' & E & _).
  exists o'. exact E.
Defined.

Lemma submit_process_status_witness :
  ∃ id o1 o2 r,
    submit_task (1002 # 10) (1002 # 10) 1%nat full_pipeline_request steady_orchestrator
      = Ok id o1 ∧
    process_tasks half_past o1 = Ok tt o2 ∧
    get_task_status id o2 = Ok (TaskRecord r) o2.
Proof.
  destruct (submit_process_status (1002 # 10) (1002 # 10) 1%nat full_pipeline_request
              ["Earth"; "Moon"; "Sun"] half_past steady_orchestrator (reachable_init _ _ _))
    as (id & o1 & o2 & r & c & E1 & E2 & E3 & _).
  - vm_compute. reflexivity.
  - exists id, o1, o2, r. split; [exact E1|]. split; [exact E2|exact E3].
Defined.

Lemma process_tasks_twice_witness :
  ∃ o', process_tasks half_past queued_orchestrator = Ok tt o' ∧
        process_tasks half_past o' = Ok tt o'.
Proof.
  exact (process_tasks_twice half_past half_past queued_orchestrator
           (reachable_after _ _ (reachable_init _ _ _))).
Defined.

Lemma records_are_kept_witness :
  dom (results queued_orchestrator) ⊆ dom (results drained_orchestrator).
Proof.
  exact (records_are_kept (ProcessTasks half_past) queued_orchestrator
           (reachable_after _ _ (reachable_init _ _ _))).
Defined.

(** Sun cannot take the feedback: nothing is stored. *)
Lemma handle_feedback_raise_stores_nothing_witness :
  results (final (handle_feedback "task_100_0" sun_feedback deaf_orchestrator)) =
  results deaf_orchestrator.
Proof.
  refine (proj1 (proj2
            (handle_feedback_raise_stores_nothing "task_100_0" sun_feedback
               deaf_orchestrator
               (Exn "FileNotFoundError"
                  "[Errno 2] No such file or directory: 'datasets/sun/performance_metrics.json'")
               (final (handle_feedback "task_100_0" sun_feedback deaf_orchestrator)) _))).
  vm_compute. reflexivity.
Defined.

Lemma early_feedback_is_overwritten_witness :
  ∃ o2 r2,
    process_tasks half_past
      (final (handle_feedback "task_100_0" second_feedback queued_orchestrator)) = Ok tt o2 ∧
    results o2 !! "task_100_0" = Some r2 ∧
    feedback r2 = Some second_feedback.
Proof.
  destruct (early_feedback_is_overwritten queued_request
              second_feedback half_past queued_orchestrator
              (final (handle_feedback "task_100_0" second_feedback queued_orchestrator))
              (reachable_after _ _ (reachable_init _ _ _)))
    as (r1 & o2 & r2 & _ & _ & E & Hr2 & _ & Hfb).
  - vm_compute. constructor.
  - vm_compute. reflexivity.
  - exists o2, r2. split; [exact E|]. split; [exact Hr2|exact Hfb].
Defined.

(** The queue that refers to a first dictionary, to a second and to
    the first again: the two dictionaries have different ids, and the
    first shows its latest id at both places. *)
Lemma queued_ids_distinct_witness :
  ∃ first second again,
    task_queue resubmitted_orchestrator =
      [(1%nat, first); (2%nat, second); (1%nat, again)] ∧
    task_id first ≠ task_id second ∧ first = again ∧
    task_id first = "task_100_2" ∧ task_id second = "task_100_1".
Proof.
  eexists _, _, _. split; [vm_compute; reflexivity|].
  pose proof (proj1 (queued_ids_distinct resubmitted_orchestrator
                       (reachable_after _ _ (reachable_after _ _
                          (reachable_after _ _ (reachable_init _ _ _)))))) as Hentries.
  split; [|split; [|split; reflexivity]].
  - intros Hid.
    assert (1%nat = 2%nat) as Hsame; [|discriminate Hsame].
    refine (proj1 (proj1 (Hentries 0%nat 1%nat _ _ _ _ _ _)) Hid); vm_compute; reflexivity.
  - refine (proj2 (Hentries 0%nat 2%nat _ _ _ _ _ _) eq_refl); vm_compute; reflexivity.
Defined.

(** The two submissions of the scenario, made in the same second with
    an empty queue, get the same id. *)
Lemma submit_task_ids_coincide_witness :
  "task_100_0" = "task_100_0" ↔
  py_int (1002 # 10) = py_int (1007 # 10) ∧
  length (task_queue moonless_orchestrator) = length (task_queue drained_orchestrator).
Proof.
  apply (submit_task_ids_coincide (1002 # 10) (1002 # 10) 1%nat full_pipeline_request
           moonless_orchestrator (1007 # 10) (1007 # 10) 2%nat code_generation_request
           drained_orchestrator); vm_compute; reflexivity.
Defined.

Lemma submit_and_monitor_never_returns_witness :
  ∃ o', submit_and_monitor 1000 (1002 # 10) (1002 # 10) 1%nat code_generation_request
          steady_orchestrator = Ok None o'.
Proof.
  destruct (submit_and_monitor_never_returns 1000 (1002 # 10) (1002 # 10) 1%nat
              code_generation_request ["Earth"] steady_orchestrator) as (id & o' & _ & E).
  - vm_compute. reflexivity.
  - exists o'. exact E.
Defined.

Lemma status_never_error_witness :
  status (default pending_record (results drained_orchestrator !! "task_100_0")) ≠ "error".
Proof.
  apply (status_never_error drained_orchestrator "task_100_0").
  - apply reachable_after, reachable_after, reachable_init.
  - vm_compute. reflexivity.
Defined.


Lemma while_task_queue_process_queue_witness :
  while_task_queue 1 half_past 0 queued_orchestrator =
  Some (process_queue half_past 0 (task_queue queued_orchestrator) queued_orchestrator).
Proof.
  apply (while_task_queue_process_queue half_past (task_queue queued_orchestrator) 0
           queued_orchestrator).
  reflexivity.
Defined.

(** ** A counter that can go down *)

Section Order.

(** [completed_tasks] can go down.  A task that was given feedback
    while it waited counts as completed; when it is then processed
    alone and one of its workers raises, its status becomes
    ["partial_success"] and the counter loses one. *)
Theorem completed_tasks_can_decrease clock dict task name e r o :
  reachable o →
  task_queue o = [(dict, task)] →
  results o !! task_id task = Some r →
  status r = "completed_with_feedback" →
  name ∈ assigned_assistants task →
  _process_task_with_assistant task name o = Raises e →
  (length (completed_task_ids (after (ProcessTasks clock) o)) + 1 =
   length (completed_task_ids o))%nat.
Proof.
  intros Hreach Hq Hr Hs Hname Hraise.
  destruct (process_tasks_Ok clock o (reachable_consistent o Hreach))
    as (o' & E & _ & _ & Hother & Hmine).
  simpl. rewrite E. simpl.
  destruct (Hmine task) as (r0 & i & _ & Hr0 & Hr');
    [unfold queued_tasks; rewrite Hq; by left|].
  rewrite Hr in Hr0. injection Hr0 as <-.
  assert (results o' = <[task_id task := processed (clock i) task o r]> (results o))
    as Hres.
  { apply map_eq. intros id. destruct (decide (id = task_id task)) as [->|Hne].
    - by rewrite lookup_insert_eq.
    - rewrite lookup_insert_ne by done. apply Hother.
      unfold queued_tasks. rewrite Hq. simpl. intros Hin.
      apply list_elem_of_singleton in Hin. done. }
  pose proof (completed_task_ids_insert o (task_id task) r
                (processed (clock i) task o r) Hr) as Hlaw.
  unfold completed_task_ids in *. simpl in Hlaw. rewrite Hres.
  assert (count_of r = 1%nat) as Hone.
  { unfold count_of. by rewrite (proj2 (counts_as_completed_iff r)) by auto. }
  assert (count_of (processed (clock i) task o r) = 0%nat) as Hzero.
  { unfold count_of.
    destruct (counts_as_completed _) eqn:Hcount; [|done].
    apply counts_as_completed_iff in Hcount.
    rewrite (processed_partial _ _ _ _ _ _ Hname Hraise) in Hcount.
    by destruct Hcount. }
  lia.
Qed.

End Order.

(** The full-pipeline task, given feedback before it is processed with
    a Moon that raises. *)
Lemma completed_tasks_can_decrease_witness :
  (length (completed_task_ids
             (after (ProcessTasks half_past)
                (after (HandleFeedback "task_100_0" second_feedback) queued_orchestrator)))
   + 1 =
   length (completed_task_ids
             (after (HandleFeedback "task_100_0" second_feedback) queued_orchestrator)))%nat.
Proof.
  apply (completed_tasks_can_decrease half_past 1%nat queued_request "Moon"
           (Exn "RuntimeError" "model unavailable")
           (with_feedback second_feedback pending_record)).
  - apply reachable_after, reachable_after, reachable_init.
  - vm_compute. reflexivity.
  - vm_compute. reflexivity.
  - reflexivity.
  - vm_compute. repeat constructor.
  - vm_compute. reflexivity.
Defined.
